(** * loki-client-go: a batching log shipper for Loki

    A shallow embedding of the client (package [loki]) and of its buffer and
    severity levels (package [pkg]), followed by the properties of the
    buffer, of the configuration defaults, of the severity filter, of the
    payload built by a flush and of the worker's life cycle.

    Conventions.
    - Go's [int], [int64], [time.Duration] are integers of 64 bits, carried
      here by [Z]; the one product the code computes on them
      ([time.Second * time.Duration(MaxWaitTime)]) is wrapped explicitly.
    - A [map[K]V] is a [gmap K V]; a [[2]string] is a pair of strings.
    - A Go function that can panic returns an [option]: [None] is the panic.
    - The body of a method that holds the buffer's mutex from its first to
      its last statement is one atomic function on the buffer. *)

From Stdlib Require Import ZArith Lia.
From stdpp Require Import base option list gmap strings pretty.

Local Open Scope string_scope.
Local Open Scope Z_scope.

(** ** What the Go runtime decides

    Two facts about slices are fixed by the runtime and the platform, not by
    the repository: the capacity [append] picks when it has to grow a slice
    (from the old capacity and the length needed), and the largest capacity
    [make] accepts for a slice of log entries before it panics. *)
Class GoRuntime := {
  growslice : Z → Z → Z;
  maxcap : Z
}.

(** ** 64-bit arithmetic and the clock *)

(** Two's complement wrap-around of a 64-bit signed integer. *)
Definition wrap64 (z : Z) : Z := (z + 2 ^ 63) `mod` 2 ^ 64 - 2 ^ 63.

(** [time.Second], in nanoseconds. *)
Definition Second : Z := 1000000000.

(** [time.Second * time.Duration(n)]: a product of two [int64]. *)
Definition seconds (n : Z) : Z := wrap64 (Second * n).

(** [time.Since(t)] read when the clock shows [now]; [Time.Sub] saturates at
    the bounds of [Duration]. *)
Definition Since (t now : Z) : Z :=
  Z.max (- 2 ^ 63) (Z.min (2 ^ 63 - 1) (now - t)).

(** [strconv.FormatInt(i, 10)]: the decimal digits of [i], after a minus
    sign when [i] is negative. *)
Definition FormatInt (i : Z) : string := pretty i.

(** ** Package pkg: severity levels (level.go) and the buffer (buffer.go) *)
Module pkg.

(** [type LogLevel int] *)
Definition LogLevel : Type := Z.

Definition LevelDebug : LogLevel := 0.
Definition LevelInfo : LogLevel := 1.
Definition LevelWarn : LogLevel := 2.
Definition LevelError : LogLevel := 3.

Definition LevelToString (level : LogLevel) : string :=
  match level with
  | 0 => "debug"
  | 1 => "info"
  | 2 => "warn"
  | 3 => "error"
  | _ => "unknown"
  end.

(** The four levels level.go declares. *)
Definition declared (level : LogLevel) : Prop := 0 ≤ level ≤ 3.

Record LogEntry := {
  Timestamp : Z;
  Message : string;
  Level : LogLevel
}.

(** The entries of one level, in the order of the list. *)
Definition with_level (level : LogLevel) (es : list LogEntry) : list LogEntry :=
  filter (λ e, Level e = level) es.

(** A slice of log entries: its elements and its capacity. *)
Record Slice := {
  elems : list LogEntry;
  cap : Z
}.

Definition len (s : Slice) : Z := Z.of_nat (length (elems s)).

Section WithRuntime.
Context `{!GoRuntime}.

(** [make([]LogEntry, 0, n)] panics when [n] is out of range. *)
Definition make (n : Z) : option Slice :=
  if (n <? 0) || (maxcap <? n) then None
  else Some {| elems := []; cap := n |}.

(** [append(s, e)]: the capacity is kept while the element fits. *)
Definition append (s : Slice) (e : LogEntry) : Slice :=
  {| elems := (elems s ++ [e])%list;
     cap := if len s + 1 <=? cap s then cap s
            else growslice (cap s) (len s + 1) |}.

(** [entries] is the pending batch, [size] the target batch size; the
    mutex [mu] has no state of its own here. *)
Record Buffer := {
  entries : Slice;
  size : Z
}.

Definition NewBuffer (size : Z) : option Buffer :=
  s ← make size;
  Some {| entries := s; size := size |}.

(** [Add] returns the buffer after the call and the boolean result. *)
Definition Add (b : Buffer) (entry : LogEntry) : Buffer * bool :=
  let b' := {| entries := append (entries b) entry; size := size b |} in
  (b', len (entries b') >=? size b').

(** [Flush] returns the buffer after the call and the slice it hands
    out. *)
Definition Flush (b : Buffer) : option (Buffer * Slice) :=
  let entries_ := entries b in
  s ← make (size b);
  Some ({| entries := s; size := size b |}, entries_).

(** *** A caller's view of a buffer

    A sequence of calls of [Add] and [Flush] on one buffer, one after the
    other, and what each call returns. *)
Inductive Call :=
  | CallAdd (entry : LogEntry)
  | CallFlush.

Inductive Reply :=
  | Added (thresholdReached : bool)
  | Flushed (drained : list LogEntry).

Fixpoint calls (b : Buffer) (cs : list Call) : option (Buffer * list Reply) :=
  match cs with
  | [] => Some (b, [])
  | CallAdd entry :: cs' =>
      let '(b', reached) := Add b entry in
      '(b'', rs) ← calls b' cs';
      Some (b'', Added reached :: rs)
  | CallFlush :: cs' =>
      '(b', drained) ← Flush b;
      '(b'', rs) ← calls b' cs';
      Some (b'', Flushed (elems drained) :: rs)
  end.

(** The buffers [NewBuffer] builds, and [Add] and [Flush] keep: a size that
    [make] accepts. *)
Definition Buffer_ok (b : Buffer) : Prop := 0 ≤ size b ≤ maxcap.

End WithRuntime.

(** The entries passed to [Add] in a sequence of calls, in order. *)
Definition added (cs : list Call) : list LogEntry :=
  omap (λ c, match c with CallAdd entry => Some entry | CallFlush => None end) cs.

(** The entries handed out by [Flush] in a sequence of replies, in order. *)
Definition drained_by (rs : list Reply) : list LogEntry :=
  mjoin (omap (λ r, match r with Flushed es => Some es | Added _ => None end) rs).

(** The replies, stated on the list of pending entries alone: an [Add]
    reports whether the list has reached [size] once the entry is in it, a
    [Flush] hands out the pending entries and leaves none. *)
Fixpoint replies (size : Z) (pending : list LogEntry) (cs : list Call)
  : list Reply :=
  match cs with
  | [] => []
  | CallAdd entry :: cs' =>
      Added (bool_decide (size ≤ Z.of_nat (length pending) + 1))
        :: replies size (pending ++ [entry])%list cs'
  | CallFlush :: cs' => Flushed pending :: replies size [] cs'
  end.

(** The entries still pending after a sequence of calls. *)
Fixpoint pending_after (pending : list LogEntry) (cs : list Call)
  : list LogEntry :=
  match cs with
  | [] => pending
  | CallAdd entry :: cs' => pending_after (pending ++ [entry])%list cs'
  | CallFlush :: cs' => pending_after [] cs'
  end.

End pkg.

(** ** Results of a step

    [Ok a]: the call returns [a]. [Panic]: the Go code panics. [Disabled]:
    the step is not a behaviour of the program in this state (the label
    names a worker that does not run, or an enumeration of a map that is
    not one of its keys). *)
Inductive Outcome (A : Type) : Type :=
  | Ok (a : A)
  | Panic
  | Disabled.
Arguments Ok {A} a.
Arguments Panic {A}.
Arguments Disabled {A}.

Definition of_option {A} (o : option A) : Outcome A :=
  match o with
  | Some a => Ok a
  | None => Panic
  end.

#[global] Instance Outcome_bind : MBind Outcome := λ A B f m,
  match m with
  | Ok a => f a
  | Panic => Panic
  | Disabled => Disabled
  end.

(** ** Package loki: types.go and client.go (the client with levels) *)
Module loki.

(** A stream: its labels (JSON field [stream]) and its records (JSON
    field [values]), each record a timestamp string and a message. *)
Record Stream := {
  stream : gmap string string;
  values : list (string * string)
}.

Record PushRequest := {
  Streams : list Stream
}.

(** Modelled from the spec: the field [MinLevel], which client.go reads
    and compares with a [pkg.LogLevel] and which the declaration of
    [ClientConfig] under types.go does not list; the other fields are
    those of types.go. *)
Record ClientConfig := {
  URL : string;
  Labels : gmap string string;
  BatchSize : Z;
  MinWaitTime : Z;
  MaxWaitTime : Z;
  MinLevel : pkg.LogLevel
}.

(** The channel [done] is unbuffered: it holds no value, and a send on it
    completes only together with a receive (see [Stop] below). *)
Record Client := {
  config : ClientConfig;
  buffer : pkg.Buffer
}.

Definition error : Type := option string.

(** The key under which [flush] stores a stream's level. *)
Definition detected_level : string := "detected_level".

(** The record [flush] builds for one entry. *)
Definition record (entry : pkg.LogEntry) : string * string :=
  (FormatInt (pkg.Timestamp entry), pkg.Message entry).

(** The first loop of [flush]: the records grouped by level. *)
Definition levelGroups (entries : list pkg.LogEntry)
  : gmap pkg.LogLevel (list (string * string)) :=
  foldl (λ groups entry,
           <[pkg.Level entry := ((groups !!! pkg.Level entry) ++ [record entry])%list]> groups)
        ∅ entries.

(** The second loop of [flush]: one stream per key of [groups], in the
    order [order] in which the runtime enumerates the keys. *)
Definition streams_of (labels : gmap string string)
    (groups : gmap pkg.LogLevel (list (string * string)))
    (order : list pkg.LogLevel) : list Stream :=
  (λ level, {| stream := <[detected_level := pkg.LevelToString level]> labels;
               values := groups !!! level |}) <$> order.

(** [order] is an enumeration of the keys of [groups]: Go leaves the
    order of [range] over a map to the runtime. *)
Definition enumerates {V} (order : list pkg.LogLevel)
    (groups : gmap pkg.LogLevel V) : Prop :=
  order ≡ₚ (map_to_list groups).*1.

#[global] Instance enumerates_dec {V} (order : list pkg.LogLevel)
    (groups : gmap pkg.LogLevel V) : Decision (enumerates order groups) :=
  decide (order ≡ₚ@{Z} (map_to_list groups).*1).

Section WithRuntime.
Context `{!GoRuntime}.

Definition NewClient (config : ClientConfig) : option Client :=
  let config1 :=
    if BatchSize config =? 0
    then {| URL := URL config; Labels := Labels config; BatchSize := 100;
            MinWaitTime := MinWaitTime config;
            MaxWaitTime := MaxWaitTime config; MinLevel := MinLevel config |}
    else config in
  let config2 :=
    if MinWaitTime config1 =? 0
    then {| URL := URL config1; Labels := Labels config1;
            BatchSize := BatchSize config1; MinWaitTime := 1;
            MaxWaitTime := MaxWaitTime config1; MinLevel := MinLevel config1 |}
    else config1 in
  let config3 :=
    if MaxWaitTime config2 =? 0
    then {| URL := URL config2; Labels := Labels config2;
            BatchSize := BatchSize config2; MinWaitTime := MinWaitTime config2;
            MaxWaitTime := 10; MinLevel := MinLevel config2 |}
    else config2 in
  let config4 :=
    if MinLevel config3 =? 0
    then {| URL := URL config3; Labels := Labels config3;
            BatchSize := BatchSize config3; MinWaitTime := MinWaitTime config3;
            MaxWaitTime := MaxWaitTime config3; MinLevel := pkg.LevelInfo |}
    else config3 in
  buffer ← pkg.NewBuffer (BatchSize config4);
  Some {| config := config4; buffer := buffer |}.

(** [flush] returns the client after the call and the requests handed to
    [send] (none or one). What [send] returns is only logged. *)
Definition flush (c : Client) (order : list pkg.LogLevel)
  : Outcome (Client * list PushRequest) :=
  '(b, entries) ← of_option (pkg.Flush (buffer c));
  let c' := {| config := config c; buffer := b |} in
  if pkg.len entries =? 0 then Ok (c', [])
  else
    let groups := levelGroups (pkg.elems entries) in
    if bool_decide (enumerates order groups)
    then Ok (c', [ {| Streams := streams_of (Labels (config c)) groups order |} ])
    else Disabled.

(** [pushLogWithLevel] at the instant [now] of the clock: the client
    after the call, the requests handed to [send], and the error
    returned. *)
Definition pushLogWithLevel (c : Client) (now : Z) (message : string)
    (level : pkg.LogLevel) (order : list pkg.LogLevel)
  : Outcome (Client * list PushRequest * error) :=
  if level <? MinLevel (config c) then Ok (c, [], None)
  else
    let entry := {| pkg.Timestamp := now; pkg.Message := message;
                    pkg.Level := level |} in
    let '(b, reached) := pkg.Add (buffer c) entry in
    let c' := {| config := config c; buffer := b |} in
    if reached
    then '(c'', reqs) ← flush c' order; Ok (c'', reqs, None)
    else Ok (c', [], None).

Definition Debug (c : Client) (now : Z) (message : string) :=
  pushLogWithLevel c now message pkg.LevelDebug.
Definition Info (c : Client) (now : Z) (message : string) :=
  pushLogWithLevel c now message pkg.LevelInfo.
Definition Warn (c : Client) (now : Z) (message : string) :=
  pushLogWithLevel c now message pkg.LevelWarn.
Definition Error (c : Client) (now : Z) (message : string) :=
  pushLogWithLevel c now message pkg.LevelError.


(** *** The running program

    The client, the worker goroutines started so far that have not
    returned, the calls of [send] made so far (each with the reading of
    the clock of the step that made it), and the last reading of the
    clock. *)
Record Worker := {
  ticker : Z;
  lastFlush : Z
}.

Record World := {
  client : Client;
  workers : list Worker;
  sent : list (Z * PushRequest);
  clock : Z
}.

Definition NewWorld (config : ClientConfig) (now : Z) : Outcome World :=
  c ← of_option (NewClient config);
  Ok {| client := c; workers := []; sent := []; clock := now |}.

(** [Start] with the first statements of the worker it launches:
    [time.NewTicker] panics on an interval that is not positive, and
    [lastFlush] is the clock read then. *)
Definition Start (w : World) (now : Z) : Outcome World :=
  if now <? clock w then Disabled
  else
    let d := seconds (MaxWaitTime (config (client w))) in
    if d <=? 0 then Panic
    else Ok {| client := client w;
               workers := (workers w ++ [{| ticker := d; lastFlush := now |}])%list;
               sent := sent w;
               clock := now |}.

(** [Stop] returns when its send on [done] meets the receive of a
    worker waiting in [select]; worker [i] takes the value and returns.
    With no worker to receive, the send does not complete. *)
Definition Stop (w : World) (i : nat) : Outcome World :=
  match workers w !! i with
  | None => Disabled
  | Some _ =>
      Ok {| client := client w;
            workers := delete i (workers w);
            sent := sent w;
            clock := clock w |}
  end.

(** The [ticker.C] case of worker [i]: the clock shows [now] at the
    test and [after] when [lastFlush] is assigned. *)
Definition tick (w : World) (i : nat) (now after : Z)
    (order : list pkg.LogLevel) : Outcome World :=
  match workers w !! i with
  | None => Disabled
  | Some wk =>
      if (now <? clock w) || (after <? now) then Disabled
      else if Since (lastFlush wk) now >=? seconds (MaxWaitTime (config (client w)))
      then
        '(c', reqs) ← flush (client w) order;
        Ok {| client := c';
              workers := <[i := {| ticker := ticker wk; lastFlush := after |}]> (workers w);
              sent := (sent w ++ (pair now <$> reqs))%list;
              clock := after |}
      else Ok {| client := client w; workers := workers w;
                 sent := sent w; clock := now |}
  end.

(** The four logging methods a caller has. *)
Inductive Method := MDebug | MInfo | MWarn | MError.

Definition method (m : Method) :=
  match m with
  | MDebug => Debug
  | MInfo => Info
  | MWarn => Warn
  | MError => Error
  end.

Definition log (w : World) (m : Method) (now : Z) (message : string)
    (order : list pkg.LogLevel) : Outcome World :=
  if now <? clock w then Disabled
  else
    '(c', reqs, _) ← method m (client w) now message order;
    Ok {| client := c'; workers := workers w;
          sent := (sent w ++ (pair now <$> reqs))%list;
          clock := now |}.

(** The steps of a program that uses one client: calls of its methods
    and ticks of its workers, each labelled with what the environment
    chooses (clock readings, the worker that receives, the order in
    which a map is enumerated). The instants at which a ticker fires are
    left to the environment too: a worker may see a tick at any reading of
    the clock that does not go back. *)
Inductive Event :=
  | CallStart (now : Z)
  | CallStop (i : nat)
  | CallLog (m : Method) (now : Z) (message : string) (order : list pkg.LogLevel)
  | Tick (i : nat) (now after : Z) (order : list pkg.LogLevel).

Definition exec (w : World) (ev : Event) : Outcome World :=
  match ev with
  | CallStart now => Start w now
  | CallStop i => Stop w i
  | CallLog m now message order => log w m now message order
  | Tick i now after order => tick w i now after order
  end.

Fixpoint run (w : World) (evs : list Event) : Outcome World :=
  match evs with
  | [] => Ok w
  | ev :: evs' => w' ← exec w ev; run w' evs'
  end.

(** The steps that launch a worker. *)
Definition starts_worker (ev : Event) : bool :=
  match ev with
  | CallStart _ => true
  | _ => false
  end.

(** What holds of the client of every program: its buffer has a size that
    [make] accepts, and the pending entries carry declared levels (the four
    logging methods are the only callers of [pushLogWithLevel]). *)
Definition Client_ok (c : Client) : Prop :=
  pkg.Buffer_ok (buffer c)
  ∧ Forall (λ e, pkg.declared (pkg.Level e)) (pkg.elems (pkg.entries (buffer c))).

End WithRuntime.

End loki.

(** ** Package loki, the client without levels

    The second client.go of the repository: one stream per flush, labelled
    with the configured labels alone. It shares types.go and the buffer. *)
Module loki_plain.

(** [ClientConfig] as types.go declares it. *)
Record ClientConfig := {
  URL : string;
  Labels : gmap string string;
  BatchSize : Z;
  MinWaitTime : Z;
  MaxWaitTime : Z
}.

Record Client := {
  config : ClientConfig;
  buffer : pkg.Buffer
}.

(** The loop of [flush]: [stream.Values[i]] is assigned for each index
    [i] of [entries]; an index out of range would panic. *)
Fixpoint fill (vals : list (string * string)) (i : nat)
    (entries : list pkg.LogEntry) : option (list (string * string)) :=
  match entries with
  | [] => Some vals
  | entry :: rest =>
      if bool_decide (i < length vals)%nat
      then fill (<[i := loki.record entry]> vals) (S i) rest
      else None
  end.

Section WithRuntime.
Context `{!GoRuntime}.

Definition NewClient (config : ClientConfig) : option Client :=
  let config1 :=
    if BatchSize config =? 0
    then {| URL := URL config; Labels := Labels config; BatchSize := 100;
            MinWaitTime := MinWaitTime config;
            MaxWaitTime := MaxWaitTime config |}
    else config in
  let config2 :=
    if MinWaitTime config1 =? 0
    then {| URL := URL config1; Labels := Labels config1;
            BatchSize := BatchSize config1; MinWaitTime := 1;
            MaxWaitTime := MaxWaitTime config1 |}
    else config1 in
  let config3 :=
    if MaxWaitTime config2 =? 0
    then {| URL := URL config2; Labels := Labels config2;
            BatchSize := BatchSize config2; MinWaitTime := MinWaitTime config2;
            MaxWaitTime := 10 |}
    else config2 in
  buffer ← pkg.NewBuffer (BatchSize config3);
  Some {| config := config3; buffer := buffer |}.

(** [flush] returns the client after the call and the requests handed
    to [send]. *)
Definition flush (c : Client) : option (Client * list loki.PushRequest) :=
  '(b, entries) ← pkg.Flush (buffer c);
  let c' := {| config := config c; buffer := b |} in
  if pkg.len entries =? 0 then Some (c', [])
  else
    let values0 := replicate (length (pkg.elems entries)) ("", "") in
    vals ← fill values0 0 (pkg.elems entries);
    let stream := {| loki.stream := Labels (config c); loki.values := vals |} in
    Some (c', [ {| loki.Streams := [stream] |} ]).

(** [PushLog] at the instant [now]; the entry's level is the zero
    value. *)
Definition PushLog (c : Client) (now : Z) (message : string)
  : option (Client * list loki.PushRequest * loki.error) :=
  let entry := {| pkg.Timestamp := now; pkg.Message := message;
                  pkg.Level := 0 |} in
  let '(b, reached) := pkg.Add (buffer c) entry in
  let c' := {| config := config c; buffer := b |} in
  if reached
  then '(c'', reqs) ← flush c'; Some (c'', reqs, None)
  else Some (c', [], None).

End WithRuntime.

End loki_plain.

(** ** A runtime and inputs for the examples *)

(** A 64-bit platform: a log entry takes 32 bytes and an allocation at most
    2^48 bytes. The growth rule stands for the runtime's; no statement
    below depends on it. *)
Definition amd64 : GoRuntime :=
  {| growslice old need := Z.max need (2 * old); maxcap := 2 ^ 43 |}.

Definition entry (t : Z) (message : string) (level : pkg.LogLevel) : pkg.LogEntry :=
  {| pkg.Timestamp := t; pkg.Message := message; pkg.Level := level |}.

(** Three entries of two levels. *)
Definition abc : list pkg.LogEntry :=
  [entry 1000 "a" pkg.LevelInfo; entry 2000 "b" pkg.LevelWarn;
   entry 3000 "c" pkg.LevelInfo].

(** A configuration with labels [{"job": "test"}] and the given batch
    size and lowest level; the waiting times are left to their defaults. *)
Definition test_config (batchSize : Z) (minLevel : pkg.LogLevel) : loki.ClientConfig :=
  {| loki.URL := "http://localhost:3100";
     loki.Labels := {[ "job" := "test" ]};
     loki.BatchSize := batchSize;
     loki.MinWaitTime := 0;
     loki.MaxWaitTime := 0;
     loki.MinLevel := minLevel |}.

(** A buffer as [NewBuffer] builds it, and one that holds pending entries. *)
Definition buffer_with (batchSize : Z) (pending : list pkg.LogEntry) : pkg.Buffer :=
  {| pkg.entries := {| pkg.elems := pending; pkg.cap := batchSize |};
     pkg.size := batchSize |}.

(** A client that holds the given pending entries. *)
Definition client_with (batchSize : Z) (minLevel : pkg.LogLevel)
    (pending : list pkg.LogEntry) : loki.Client :=
  {| loki.config :=
       {| loki.URL := "http://localhost:3100";
          loki.Labels := {[ "job" := "test" ]};
          loki.BatchSize := batchSize;
          loki.MinWaitTime := 1;
          loki.MaxWaitTime := 10;
          loki.MinLevel := minLevel |};
     loki.buffer := buffer_with batchSize pending |}.

(** A program whose one worker started at instant 0. *)
Definition started (c : loki.Client) : loki.World :=
  {| loki.client := c;
     loki.workers := [ {| loki.ticker := 10000000000; loki.lastFlush := 0 |} ];
     loki.sent := [];
     loki.clock := 0 |}.

Definition plain_client_with (batchSize : Z) (pending : list pkg.LogEntry)
  : loki_plain.Client :=
  {| loki_plain.config :=
       {| loki_plain.URL := "http://localhost:3100";
          loki_plain.Labels := {[ "job" := "test" ]};
          loki_plain.BatchSize := batchSize;
          loki_plain.MinWaitTime := 1;
          loki_plain.MaxWaitTime := 10 |};
     loki_plain.buffer := buffer_with batchSize pending |}.

(** ** Runs, measured *)

(** The level each logging method passes to [pushLogWithLevel]. *)
Definition method_level (m : loki.Method) : pkg.LogLevel :=
  match m with
  | loki.MDebug => pkg.LevelDebug
  | loki.MInfo => pkg.LevelInfo
  | loki.MWarn => pkg.LevelWarn
  | loki.MError => pkg.LevelError
  end.

(** The entries the logging calls of a run submit at or above [minLevel],
    in the order of the calls. *)
Definition accepted (minLevel : pkg.LogLevel) (evs : list loki.Event)
  : list pkg.LogEntry :=
  omap (λ ev,
          match ev with
          | loki.CallLog m now message _ =>
              if method_level m <? minLevel then None
              else Some (entry now message (method_level m))
          | _ => None
          end) evs.

(** The entries a program's client holds in its buffer. *)
Definition pending (w : loki.World) : list pkg.LogEntry :=
  pkg.elems (pkg.entries (loki.buffer (loki.client w))).

(** The records a request carries, stream after stream. *)
Definition request_records (req : loki.PushRequest) : list (string * string) :=
  concat (loki.values <$> loki.Streams req).

(** The records of the requests handed to [send], in the order sent. *)
Definition records_sent (sent : list (Z * loki.PushRequest))
  : list (string * string) :=
  concat ((λ s, request_records s.2) <$> sent).

(** A request that carries something: at least one stream, and in every
    stream at least one record and a [detected_level] label. *)
Definition carries_records (req : loki.PushRequest) : Prop :=
  loki.Streams req ≠ []
  ∧ Forall (λ s, loki.values s ≠ []
                 ∧ is_Some (loki.stream s !! loki.detected_level))
           (loki.Streams req).

Definition is_tick (ev : loki.Event) : bool :=
  match ev with
  | loki.Tick _ _ _ _ => true
  | _ => false
  end.

Definition stops_worker (ev : loki.Event) : bool :=
  match ev with
  | loki.CallStop _ => true
  | _ => false
  end.

(** * Properties *)

(** ** The buffer *)
Section Buffer.
Context `{!GoRuntime}.

Lemma make_Some (n : Z) :
  0 ≤ n ≤ maxcap → pkg.make n = Some {| pkg.elems := []; pkg.cap := n |}.
Proof.
  intros [Hlo Hhi]. unfold pkg.make.
  destruct (Z.ltb_spec n 0); [lia|].
  destruct (Z.ltb_spec maxcap n); [lia|]. reflexivity.
Qed.

Lemma make_inv (n : Z) (s : pkg.Slice) :
  pkg.make n = Some s → 0 ≤ n ≤ maxcap ∧ s = {| pkg.elems := []; pkg.cap := n |}.
Proof.
  unfold pkg.make.
  destruct (Z.ltb_spec n 0); [discriminate|].
  destruct (Z.ltb_spec maxcap n); [discriminate|].
  intros [= <-]. split; [lia|reflexivity].
Qed.

Lemma NewBuffer_inv (n : Z) (b : pkg.Buffer) :
  pkg.NewBuffer n = Some b →
  pkg.Buffer_ok b
  ∧ b = {| pkg.entries := {| pkg.elems := []; pkg.cap := n |}; pkg.size := n |}.
Proof.
  unfold pkg.NewBuffer. destruct (pkg.make n) as [s|] eqn:Hm; [|discriminate].
  apply make_inv in Hm as [Hn ->]. intros [= <-]. split; [exact Hn|reflexivity].
Qed.

Lemma Add_eq (b : pkg.Buffer) (entry : pkg.LogEntry) :
  pkg.Add b entry =
  ({| pkg.entries := pkg.append (pkg.entries b) entry; pkg.size := pkg.size b |},
   bool_decide (pkg.size b ≤ Z.of_nat (length (pkg.elems (pkg.entries b))) + 1)).
Proof.
  unfold pkg.Add, pkg.len. cbn. f_equal. rewrite length_app. cbn.
  rewrite Nat2Z.inj_add, Z.geb_leb. change (Z.of_nat 1) with 1.
  destruct (Z.leb_spec (pkg.size b) (Z.of_nat (length (pkg.elems (pkg.entries b))) + 1));
    [rewrite bool_decide_eq_true_2|rewrite bool_decide_eq_false_2]; (reflexivity || lia).
Qed.

Lemma Flush_eq (b : pkg.Buffer) :
  pkg.Buffer_ok b →
  pkg.Flush b =
  Some ({| pkg.entries := {| pkg.elems := []; pkg.cap := pkg.size b |};
           pkg.size := pkg.size b |}, pkg.entries b).
Proof. intros Hb. unfold pkg.Flush. rewrite (make_Some _ Hb). reflexivity. Qed.

(** On a buffer that [NewBuffer] could have built, a sequence of calls does
    not panic and answers as [pkg.replies] says. *)
Lemma calls_replies (cs : list pkg.Call) : ∀ b : pkg.Buffer,
  pkg.Buffer_ok b →
  ∃ b', pkg.calls b cs = Some (b', pkg.replies (pkg.size b) (pkg.elems (pkg.entries b)) cs)
        ∧ pkg.Buffer_ok b' ∧ pkg.size b' = pkg.size b
        ∧ pkg.elems (pkg.entries b') = pkg.pending_after (pkg.elems (pkg.entries b)) cs.
Proof.
  induction cs as [|[entry|] cs IH]; intros b Hb.
  - exists b. done.
  - cbn [pkg.calls pkg.replies pkg.pending_after]. rewrite Add_eq.
    set (b1 := {| pkg.entries := pkg.append (pkg.entries b) entry; pkg.size := pkg.size b |}).
    destruct (IH b1 Hb) as (b' & -> & Hok & Hsz & Hel).
    exists b'. done.
  - cbn [pkg.calls pkg.replies pkg.pending_after]. rewrite (Flush_eq _ Hb). cbn.
    set (b1 := {| pkg.entries := _; pkg.size := pkg.size b |}).
    destruct (IH b1 Hb) as (b' & -> & Hok & Hsz & Hel).
    exists b'. done.
Qed.

Lemma calls_app (cs1 cs2 : list pkg.Call) : ∀ b : pkg.Buffer,
  pkg.calls b (cs1 ++ cs2) =
  '(b1, rs1) ← pkg.calls b cs1;
  '(b2, rs2) ← pkg.calls b1 cs2;
  Some (b2, (rs1 ++ rs2)%list).
Proof.
  induction cs1 as [|[e|] cs1 IH]; intros b; cbn.
  - by destruct (pkg.calls b cs2) as [[??]|].
  - rewrite IH. destruct (pkg.calls _ cs1) as [[b1 rs1]|]; cbn; [|done].
    by destruct (pkg.calls b1 cs2) as [[??]|].
  - destruct (pkg.Flush b) as [[b1 d]|]; cbn; [|done]. rewrite IH.
    destruct (pkg.calls b1 cs1) as [[b3 rs1]|]; cbn; [|done].
    by destruct (pkg.calls b3 cs2) as [[??]|].
Qed.

(** A run of [Add]s cannot panic, whatever the buffer. *)
Lemma calls_adds (es : list pkg.LogEntry) : ∀ b : pkg.Buffer,
  ∃ b', pkg.calls b (pkg.CallAdd <$> es)
        = Some (b', pkg.replies (pkg.size b) (pkg.elems (pkg.entries b))
                      (pkg.CallAdd <$> es))
        ∧ pkg.elems (pkg.entries b') = (pkg.elems (pkg.entries b) ++ es)%list.
Proof.
  induction es as [|e es IH]; intros b.
  - exists b. cbn. by rewrite app_nil_r.
  - cbn [fmap list_fmap pkg.calls pkg.replies]. rewrite Add_eq.
    set (b1 := {| pkg.entries := pkg.append (pkg.entries b) e; pkg.size := pkg.size b |}).
    destruct (IH b1) as (b' & Hc & Hel). rewrite Hc. exists b'. split; [done|].
    rewrite Hel. cbn. by rewrite <- app_assoc.
Qed.

Lemma pending_after_app (cs1 cs2 : list pkg.Call) : ∀ p,
  pkg.pending_after p (cs1 ++ cs2) = pkg.pending_after (pkg.pending_after p cs1) cs2.
Proof. induction cs1 as [|[e|] cs1 IH]; intros p; cbn; auto. Qed.

Lemma replies_app (size : Z) (cs1 cs2 : list pkg.Call) : ∀ p,
  pkg.replies size p (cs1 ++ cs2) =
  (pkg.replies size p cs1 ++ pkg.replies size (pkg.pending_after p cs1) cs2)%list.
Proof. induction cs1 as [|[e|] cs1 IH]; intros p; cbn; [done|by rewrite IH..]. Qed.

Lemma pending_after_adds (es : list pkg.LogEntry) : ∀ p,
  pkg.pending_after p (pkg.CallAdd <$> es) = (p ++ es)%list.
Proof.
  induction es as [|e es IH]; intros p; cbn.
  - by rewrite app_nil_r.
  - rewrite IH, <- app_assoc. done.
Qed.

Lemma pending_after_flush_adds (pre : list pkg.Call) (es p : list pkg.LogEntry) :
  last pre = Some pkg.CallFlush →
  pkg.pending_after p (pre ++ (pkg.CallAdd <$> es)) = es.
Proof.
  intros Hl. destruct (last_Some pre pkg.CallFlush) as [[pre' ->] _]; [done|].
  rewrite <- app_assoc, pending_after_app. rewrite pending_after_app. cbn.
  apply pending_after_adds.
Qed.

Lemma replies_adds_lookup (size : Z) (es : list pkg.LogEntry) : ∀ p (j : nat),
  (j < length es)%nat →
  pkg.replies size p (pkg.CallAdd <$> es) !! j =
  Some (pkg.Added (bool_decide (size ≤ Z.of_nat (length p) + Z.of_nat j + 1))).
Proof.
  induction es as [|e es IH]; intros p j Hj; cbn in *; [lia|].
  destruct j as [|j]; cbn.
  - by rewrite Z.add_0_r.
  - rewrite IH by lia. rewrite length_app. cbn. do 3 f_equal.
    apply bool_decide_ext. lia.
Qed.

(** Every entry added is handed out by one [Flush] or still pending. *)
Lemma drained_conservation (size : Z) (cs : list pkg.Call) : ∀ p,
  (pkg.drained_by (pkg.replies size p cs) ++ pkg.pending_after p cs)%list =
  (p ++ pkg.added cs)%list.
Proof.
  induction cs as [|[e|] cs IH]; intros p; cbn.
  - by rewrite app_nil_r.
  - unfold pkg.drained_by, pkg.added in *. cbn. rewrite IH, <- app_assoc. done.
  - unfold pkg.drained_by, pkg.added in *. cbn. rewrite <- app_assoc, IH. done.
Qed.

(** C5. [Add] appends the entry and returns true exactly when the buffer
    then holds at least [size] entries; so in a run of [Add]s with no
    [Flush] between them, the call that brings the length to [size] returns
    true and the calls before it return false. *)
Theorem Add_reports_threshold (b : pkg.Buffer) (entry : pkg.LogEntry) :
  (∃ b' reached,
     pkg.Add b entry = (b', reached)
     ∧ pkg.elems (pkg.entries b') = (pkg.elems (pkg.entries b) ++ [entry])%list
     ∧ pkg.size b' = pkg.size b
     ∧ (reached = true ↔ pkg.size b ≤ pkg.len (pkg.entries b')))
  ∧ ∀ (es : list pkg.LogEntry) (j : nat),
      (j < length es)%nat →
      pkg.len (pkg.entries b) + Z.of_nat j + 1 = pkg.size b →
      ∃ b'' rs,
        pkg.calls b (pkg.CallAdd <$> es) = Some (b'', rs)
        ∧ rs !! j = Some (pkg.Added true)
        ∧ pkg.len (pkg.entries b'') = pkg.len (pkg.entries b) + Z.of_nat (length es)
        ∧ ∀ i : nat, (i < j)%nat → rs !! i = Some (pkg.Added false).
Proof.
  split.
  - eexists _, _. split; [apply Add_eq|]. cbn. split; [done|]. split; [done|].
    rewrite bool_decide_eq_true. unfold pkg.len. cbn. rewrite length_app. cbn. lia.
  - intros es j Hj Hlen.
    destruct (calls_adds es b) as (b'' & Hc & Hel).
    eexists _, _. split; [exact Hc|]. unfold pkg.len in *.
    split; [|split].
    + rewrite replies_adds_lookup by done. rewrite bool_decide_eq_true_2; [done|lia].
    + rewrite Hel, length_app. lia.
    + intros i Hi. rewrite replies_adds_lookup by lia.
      rewrite bool_decide_eq_false_2; [done|lia].
Qed.

(** C6. After any sequence of [Add] and [Flush] calls on a new buffer, the
    next [Flush] hands out the pending entries, which are the entries added
    since the previous [Flush] (or since construction) in the order they
    were added; it leaves an empty slice of capacity [size], so a second
    [Flush] hands out nothing; and the entries handed out so far followed
    by the pending ones are the entries added, each once. *)
Theorem Flush_hands_out_pending (n : Z) (b0 : pkg.Buffer) (cs : list pkg.Call) :
  pkg.NewBuffer n = Some b0 →
  ∃ b rs,
    pkg.calls b0 cs = Some (b, rs)
    ∧ (∃ b',
         pkg.Flush b = Some (b', pkg.entries b)
         ∧ pkg.calls b0 (cs ++ [pkg.CallFlush]) =
             Some (b', (rs ++ [pkg.Flushed (pkg.elems (pkg.entries b))])%list)
         ∧ pkg.entries b' = {| pkg.elems := []; pkg.cap := n |}
         ∧ pkg.size b' = n
         ∧ pkg.len (pkg.entries b') = 0
         ∧ pkg.Flush b' = Some (b', {| pkg.elems := []; pkg.cap := n |}))
    ∧ (∀ (pre : list pkg.Call) (es : list pkg.LogEntry),
         cs = (pre ++ (pkg.CallAdd <$> es))%list →
         pre = [] ∨ last pre = Some pkg.CallFlush →
         pkg.elems (pkg.entries b) = es)
    ∧ (pkg.drained_by rs ++ pkg.elems (pkg.entries b))%list = pkg.added cs.
Proof.
  intros Hnew. apply NewBuffer_inv in Hnew as [Hok ->].
  set (b0 := {| pkg.entries := _; pkg.size := n |}) in *.
  destruct (calls_replies cs b0 Hok) as (b & Hc & Hokb & Hsz & Hel).
  cbn in Hsz, Hel.
  exists b, (pkg.replies n [] cs). split; [exact Hc|]. split; [|split].
  - exists {| pkg.entries := {| pkg.elems := []; pkg.cap := n |}; pkg.size := n |}.
    rewrite (Flush_eq b Hokb), Hsz. split; [done|]. split.
    + rewrite calls_app, Hc. cbn. rewrite (Flush_eq b Hokb), Hsz. done.
    + split; [done|]. split; [done|]. split; [done|].
      apply (Flush_eq {| pkg.entries := _; pkg.size := n |}). exact Hok.
  - intros pre es -> [->|Hl]; rewrite Hel.
    + apply (pending_after_adds es []).
    + by apply pending_after_flush_adds.
  - rewrite Hel. apply (drained_conservation n cs []).
Qed.

End Buffer.

(** ** Construction and the configuration *)
Section Construction.
Context `{!GoRuntime}.

Lemma flush_config (c c' : loki.Client) (order : list pkg.LogLevel)
    (reqs : list loki.PushRequest) :
  loki.flush c order = Ok (c', reqs) → loki.config c' = loki.config c.
Proof.
  unfold loki.flush. destruct (pkg.Flush (loki.buffer c)) as [[b entries]|]; cbn; [|done].
  destruct (pkg.len entries =? 0); [by intros [= <- _]|].
  case_bool_decide; [by intros [= <- _]|done].
Qed.

Lemma pushLogWithLevel_config (c c' : loki.Client) (now : Z) (message : string)
    (level : pkg.LogLevel) (order : list pkg.LogLevel)
    (reqs : list loki.PushRequest) (err : loki.error) :
  loki.pushLogWithLevel c now message level order = Ok (c', reqs, err) →
  loki.config c' = loki.config c ∧ err = None.
Proof.
  unfold loki.pushLogWithLevel. destruct (level <? _); [by intros [= <- _ <-]|].
  destruct (pkg.Add _ _) as [b reached] eqn:Hadd. destruct reached.
  - destruct (loki.flush _ order) as [[c2 reqs2]| |] eqn:Hf; cbn; [|done..].
    intros [= <- _ <-]. by apply flush_config in Hf.
  - by intros [= <- _ <-].
Qed.

(** No step assigns to the configuration. *)
Lemma exec_config (w w' : loki.World) (ev : loki.Event) :
  loki.exec w ev = Ok w' →
  loki.config (loki.client w') = loki.config (loki.client w).
Proof.
  destruct ev as [now|i|m now message order|i now after order]; cbn.
  - unfold loki.Start. destruct (now <? _); [done|].
    destruct (_ <=? 0); [done|]. by intros [= <-].
  - unfold loki.Stop. destruct (_ !! i); [|done]. by intros [= <-].
  - unfold loki.log. destruct (now <? _); [done|].
    destruct (loki.method m _ now message order) as [[[c' reqs] err]| |] eqn:Hm;
      cbn; [|done..].
    intros [= <-]. cbn. destruct m; by apply pushLogWithLevel_config in Hm as [? _].
  - unfold loki.tick. destruct (_ !! i); [|done].
    destruct (_ || _); [done|]. destruct (_ >=? _).
    + destruct (loki.flush _ order) as [[c' reqs]| |] eqn:Hf; cbn; [|done..].
      intros [= <-]. by apply flush_config in Hf.
    + by intros [= <-].
Qed.

Lemma run_config (evs : list loki.Event) : ∀ w w' : loki.World,
  loki.run w evs = Ok w' →
  loki.config (loki.client w') = loki.config (loki.client w).
Proof.
  induction evs as [|ev evs IH]; intros w w'; cbn.
  - by intros [= <-].
  - destruct (loki.exec w ev) as [w1| |] eqn:He; cbn; [|done..].
    intros Hr. apply IH in Hr. apply exec_config in He. congruence.
Qed.

Lemma NewClient_inv (cfg : loki.ClientConfig) (c : loki.Client) :
  loki.NewClient cfg = Some c →
  let B := if decide (loki.BatchSize cfg = 0) then 100 else loki.BatchSize cfg in
  0 ≤ B ≤ maxcap
  ∧ c = {| loki.config :=
             {| loki.URL := loki.URL cfg; loki.Labels := loki.Labels cfg;
                loki.BatchSize := B;
                loki.MinWaitTime :=
                  if decide (loki.MinWaitTime cfg = 0) then 1 else loki.MinWaitTime cfg;
                loki.MaxWaitTime :=
                  if decide (loki.MaxWaitTime cfg = 0) then 10 else loki.MaxWaitTime cfg;
                loki.MinLevel :=
                  if decide (loki.MinLevel cfg = 0) then pkg.LevelInfo
                  else loki.MinLevel cfg |};
           loki.buffer := {| pkg.entries := {| pkg.elems := []; pkg.cap := B |};
                             pkg.size := B |} |}.
Proof.
  destruct cfg as [u l bs mn mx ml]. unfold loki.NewClient. cbn.
  destruct (Z.eqb_spec bs 0); cbn; (destruct (Z.eqb_spec mn 0); cbn);
    (destruct (Z.eqb_spec mx 0); cbn); (destruct (Z.eqb_spec ml 0); cbn);
    repeat case_decide; try lia;
    (destruct (pkg.NewBuffer _) as [b|] eqn:Hb; cbn; [|done]);
    apply NewBuffer_inv in Hb as [Hok ->]; intros [= <-];
    (split; [exact Hok|reflexivity]).
Qed.

Lemma NewClient_nonzero (cfg : loki.ClientConfig) :
  loki.BatchSize cfg ≠ 0 → loki.MinWaitTime cfg ≠ 0 →
  loki.MaxWaitTime cfg ≠ 0 → loki.MinLevel cfg ≠ 0 →
  0 ≤ loki.BatchSize cfg ≤ maxcap →
  loki.NewClient cfg =
  Some {| loki.config := cfg;
          loki.buffer :=
            {| pkg.entries := {| pkg.elems := []; pkg.cap := loki.BatchSize cfg |};
               pkg.size := loki.BatchSize cfg |} |}.
Proof.
  intros Hb Hmn Hmx Hml Hr. unfold loki.NewClient.
  rewrite (proj2 (Z.eqb_neq _ _) Hb). cbv zeta.
  rewrite (proj2 (Z.eqb_neq _ _) Hmn), (proj2 (Z.eqb_neq _ _) Hmx),
    (proj2 (Z.eqb_neq _ _) Hml).
  unfold pkg.NewBuffer. rewrite (make_Some _ Hr). reflexivity.
Qed.

(** C9. [NewClient] replaces a zero [BatchSize] by 100, a zero
    [MinWaitTime] by 1, a zero [MaxWaitTime] by 10 and a zero [MinLevel] by
    [LevelInfo], and keeps every other value, the URL and the labels; the
    buffer is sized by the resulting [BatchSize]; the defaults applied once
    more change nothing; and the configuration stays the same through
    every run of the program. It returns a client for every batch size
    that [make] accepts (with any other batch size, [NewBuffer] panics
    after the defaults are applied). *)
Theorem NewClient_applies_defaults (cfg : loki.ClientConfig) :
  (0 ≤ loki.BatchSize cfg ≤ maxcap → 100 ≤ maxcap → is_Some (loki.NewClient cfg))
  ∧ ∀ c : loki.Client, loki.NewClient cfg = Some c →
      let cfg' := loki.config c in
      loki.URL cfg' = loki.URL cfg ∧ loki.Labels cfg' = loki.Labels cfg
      ∧ (loki.BatchSize cfg = 0 → loki.BatchSize cfg' = 100)
      ∧ (loki.BatchSize cfg ≠ 0 → loki.BatchSize cfg' = loki.BatchSize cfg)
      ∧ (loki.MinWaitTime cfg = 0 → loki.MinWaitTime cfg' = 1)
      ∧ (loki.MinWaitTime cfg ≠ 0 → loki.MinWaitTime cfg' = loki.MinWaitTime cfg)
      ∧ (loki.MaxWaitTime cfg = 0 → loki.MaxWaitTime cfg' = 10)
      ∧ (loki.MaxWaitTime cfg ≠ 0 → loki.MaxWaitTime cfg' = loki.MaxWaitTime cfg)
      ∧ (loki.MinLevel cfg = 0 → loki.MinLevel cfg' = pkg.LevelInfo)
      ∧ (loki.MinLevel cfg ≠ 0 → loki.MinLevel cfg' = loki.MinLevel cfg)
      ∧ pkg.size (loki.buffer c) = loki.BatchSize cfg'
      ∧ loki.NewClient cfg' = Some c
      ∧ ∀ (now : Z) (evs : list loki.Event) (w : loki.World),
          (w0 ← loki.NewWorld cfg now; loki.run w0 evs) = Ok w →
          loki.config (loki.client w) = cfg'.
Proof.
  split.
  - intros Hb Hmax. unfold loki.NewClient.
    destruct cfg as [u l bs mn mx ml]; cbn in *.
    destruct (Z.eqb_spec bs 0); cbn; (destruct (Z.eqb_spec mn 0); cbn);
      (destruct (Z.eqb_spec mx 0); cbn); (destruct (Z.eqb_spec ml 0); cbn);
      unfold pkg.NewBuffer; rewrite make_Some by lia; cbn; eauto.
  - intros c Hc cfg'. pose proof (NewClient_inv _ _ Hc) as [HB Heq]. cbn in HB.
    assert (∀ (now : Z) (evs : list loki.Event) (w : loki.World),
          (w0 ← loki.NewWorld cfg now; loki.run w0 evs) = Ok w →
          loki.config (loki.client w) = cfg') as Himm.
    { intros now evs w. unfold loki.NewWorld. rewrite Hc. cbn.
      intros Hr. by apply run_config in Hr. }
    clear Hc. subst cfg' c. cbn in *.
    repeat split; try exact Himm; try (intros; repeat case_decide; (done || lia)).
    rewrite NewClient_nonzero; cbn;
      [done|unfold pkg.LevelInfo; repeat case_decide; (done || lia)..].
Qed.

(** C10, as the code has it. For a configuration whose [MinLevel] is not
    negative, the client [NewClient] builds has a lowest level of at least
    [LevelInfo]: [LevelDebug] is the zero value and is replaced by
    [LevelInfo] like an unset field, and every [Debug] call on that client,
    at any point of any run, leaves it unchanged and sends nothing. *)
Theorem NewClient_keeps_MinLevel_above_Debug (cfg : loki.ClientConfig)
    (c : loki.Client) :
  0 ≤ loki.MinLevel cfg → loki.NewClient cfg = Some c →
  pkg.LevelInfo ≤ loki.MinLevel (loki.config c)
  ∧ (loki.MinLevel cfg = pkg.LevelDebug → loki.MinLevel (loki.config c) = pkg.LevelInfo)
  ∧ ∀ (now : Z) (evs : list loki.Event) (w : loki.World),
      (w0 ← loki.NewWorld cfg now; loki.run w0 evs) = Ok w →
      ∀ (now' : Z) (message : string) (order : list pkg.LogLevel),
        loki.Debug (loki.client w) now' message order = Ok (loki.client w, [], None).
Proof.
  intros Hml Hc. pose proof (NewClient_inv _ _ Hc) as [_ Heq].
  assert (pkg.LevelInfo ≤ loki.MinLevel (loki.config c)) as Hinfo.
  { rewrite Heq. cbn. unfold pkg.LevelInfo.
    destruct (decide (loki.MinLevel cfg = 0)); lia. }
  split; [exact Hinfo|]. split.
  - intros Hd. rewrite Heq. cbn. unfold pkg.LevelDebug in Hd. by rewrite decide_True.
  - intros now evs w. unfold loki.NewWorld. rewrite Hc. cbn. intros Hr%run_config.
    cbn in Hr. intros now' message order. unfold loki.Debug, loki.pushLogWithLevel.
    rewrite Hr. unfold pkg.LevelDebug, pkg.LevelInfo in *.
    by destruct (Z.ltb_spec 0 (loki.MinLevel (loki.config c))); [|lia].
Qed.

End Construction.

(** ** The payload of a flush and the severity filter *)
Section Payload.
Context `{!GoRuntime}.

(** The grouping loop, from any map of groups: a level's records are those
    it had, followed by the records of its entries in order. *)
Lemma groups_lookup_total (es : list pkg.LogEntry) :
  ∀ (m : gmap pkg.LogLevel (list (string * string))) (level : pkg.LogLevel),
  foldl (λ groups entry,
           <[pkg.Level entry :=
               ((groups !!! pkg.Level entry) ++ [loki.record entry])%list]> groups)
        m es !!! level
  = ((m !!! level) ++ (loki.record <$> pkg.with_level level es))%list.
Proof.
  unfold pkg.with_level.
  induction es as [|e es IH]; intros m level; cbn [foldl].
  - cbn. by rewrite app_nil_r.
  - rewrite IH. destruct (decide (pkg.Level e = level)) as [Heq|Hne].
    + rewrite filter_cons_True by done. subst level.
      rewrite lookup_total_insert_eq. cbn. by rewrite <- app_assoc.
    + rewrite filter_cons_False by done. by rewrite lookup_total_insert_ne.
Qed.

Lemma groups_is_Some (es : list pkg.LogEntry) :
  ∀ (m : gmap pkg.LogLevel (list (string * string))) (level : pkg.LogLevel),
  is_Some (foldl (λ groups entry,
           <[pkg.Level entry :=
               ((groups !!! pkg.Level entry) ++ [loki.record entry])%list]> groups)
        m es !! level)
  ↔ is_Some (m !! level) ∨ level ∈ pkg.Level <$> es.
Proof.
  induction es as [|e es IH]; intros m level; cbn.
  - rewrite elem_of_nil. tauto.
  - rewrite IH, elem_of_cons, lookup_insert_is_Some.
    destruct (decide (pkg.Level e = level)); intuition congruence.
Qed.

Lemma levelGroups_values (es : list pkg.LogEntry) (level : pkg.LogLevel) :
  loki.levelGroups es !!! level = loki.record <$> pkg.with_level level es.
Proof. unfold loki.levelGroups. by rewrite groups_lookup_total, lookup_total_empty. Qed.

Lemma levelGroups_keys (es : list pkg.LogEntry) (level : pkg.LogLevel) :
  is_Some (loki.levelGroups es !! level) ↔ level ∈ pkg.Level <$> es.
Proof.
  unfold loki.levelGroups. rewrite groups_is_Some, lookup_empty.
  split; [intros [[? [=]]|]; done|by right].
Qed.

Lemma enumerates_spec {V} (order : list pkg.LogLevel) (groups : gmap pkg.LogLevel V) :
  loki.enumerates order groups ↔
  NoDup order ∧ ∀ level, level ∈ order ↔ is_Some (groups !! level).
Proof.
  unfold loki.enumerates.
  assert (∀ level, level ∈ (map_to_list groups).*1 ↔ is_Some (groups !! level)) as Hk.
  { intros level. rewrite list_elem_of_fmap. split.
    - intros ([k v] & -> & Hin). apply elem_of_map_to_list in Hin. eauto.
    - intros [v Hv]. exists (level, v). split; [done|]. by apply elem_of_map_to_list. }
  split.
  - intros Hp. split.
    + rewrite Hp. apply NoDup_fst_map_to_list.
    + intros level. rewrite Hp. apply Hk.
  - intros [Hnd Hin]. apply NoDup_Permutation; [done|apply NoDup_fst_map_to_list|].
    intros level. rewrite Hin. symmetry. apply Hk.
Qed.

(** The levels in order of first occurrence are one enumeration. *)
Lemma enumerates_remove_dups (es : list pkg.LogEntry) :
  loki.enumerates (remove_dups (pkg.Level <$> es)) (loki.levelGroups es).
Proof.
  apply enumerates_spec. split; [apply NoDup_remove_dups|].
  intros level. rewrite elem_of_remove_dups. symmetry. apply levelGroups_keys.
Qed.

Lemma LevelToString_inj (l1 l2 : pkg.LogLevel) :
  pkg.declared l1 → pkg.declared l2 →
  pkg.LevelToString l1 = pkg.LevelToString l2 → l1 = l2.
Proof.
  unfold pkg.declared. intros H1 H2.
  assert (l1 = 0 ∨ l1 = 1 ∨ l1 = 2 ∨ l1 = 3) as Hc1 by lia.
  assert (l2 = 0 ∨ l2 = 1 ∨ l2 = 2 ∨ l2 = 3) as Hc2 by lia.
  destruct Hc1 as [-> | [-> | [-> | ->]]], Hc2 as [-> | [-> | [-> | ->]]];
    cbn; congruence.
Qed.

Lemma flush_eq (c : loki.Client) (order : list pkg.LogLevel) :
  pkg.Buffer_ok (loki.buffer c) →
  let pending := pkg.elems (pkg.entries (loki.buffer c)) in
  let c' := {| loki.config := loki.config c;
               loki.buffer :=
                 {| pkg.entries := {| pkg.elems := []; pkg.cap := pkg.size (loki.buffer c) |};
                    pkg.size := pkg.size (loki.buffer c) |} |} in
  loki.flush c order =
  if decide (pending = []) then Ok (c', [])
  else if decide (loki.enumerates order (loki.levelGroups pending))
       then Ok (c', [ {| loki.Streams :=
                           loki.streams_of (loki.Labels (loki.config c))
                             (loki.levelGroups pending) order |} ])
       else Disabled.
Proof.
  intros Hok pending c'. unfold loki.flush. rewrite (Flush_eq _ Hok). cbn.
  unfold pkg.len. fold pending. destruct pending as [|e es] eqn:Hp.
  - cbn. by rewrite decide_True.
  - rewrite decide_False by done.
    destruct (Z.eqb_spec (Z.of_nat (length (e :: es))) 0) as [Hl|_]; [cbn in Hl; lia|].
    unfold bool_decide. by destruct (loki.enumerates_dec order _), (decide _).
Qed.

Lemma pushLogWithLevel_eq (c : loki.Client) (now : Z) (message : string)
    (level : pkg.LogLevel) (order : list pkg.LogLevel) :
  pkg.Buffer_ok (loki.buffer c) →
  let entry := {| pkg.Timestamp := now; pkg.Message := message; pkg.Level := level |} in
  let pending := (pkg.elems (pkg.entries (loki.buffer c)) ++ [entry])%list in
  let size := pkg.size (loki.buffer c) in
  loki.pushLogWithLevel c now message level order =
  if decide (level < loki.MinLevel (loki.config c)) then Ok (c, [], None)
  else if decide (size ≤ Z.of_nat (length pending))
  then
    if decide (loki.enumerates order (loki.levelGroups pending))
    then Ok ({| loki.config := loki.config c;
                loki.buffer := {| pkg.entries := {| pkg.elems := []; pkg.cap := size |};
                                  pkg.size := size |} |},
             [ {| loki.Streams := loki.streams_of (loki.Labels (loki.config c))
                                    (loki.levelGroups pending) order |} ],
             None)
    else Disabled
  else Ok ({| loki.config := loki.config c;
              loki.buffer :=
                {| pkg.entries := pkg.append (pkg.entries (loki.buffer c)) entry;
                   pkg.size := size |} |}, [], None).
Proof.
  intros Hok entry pending size. unfold loki.pushLogWithLevel.
  destruct (Z.ltb_spec level (loki.MinLevel (loki.config c)));
    [by rewrite decide_True|rewrite decide_False by lia].
  fold entry. rewrite Add_eq. subst pending. rewrite length_app, Nat2Z.inj_add.
  change (Z.of_nat (length [entry])) with 1. fold size.
  case_bool_decide as Hsz; [rewrite decide_True by done|by rewrite decide_False].
  rewrite flush_eq by exact Hok. cbn.
  rewrite decide_False by (by destruct (pkg.elems _)).
  unfold loki.levelGroups. by destruct (decide _).
Qed.

Lemma flush_Client_ok (c c' : loki.Client) (order : list pkg.LogLevel)
    (reqs : list loki.PushRequest) :
  loki.Client_ok c → loki.flush c order = Ok (c', reqs) → loki.Client_ok c'.
Proof.
  intros [Hok Hlv]. rewrite (flush_eq c order Hok). cbv zeta.
  repeat case_decide; [| |done]; intros [= <- _];
    (split; [exact Hok|by apply Forall_nil]).
Qed.

Lemma pushLogWithLevel_Client_ok (c c' : loki.Client) (now : Z) (message : string)
    (level : pkg.LogLevel) (order : list pkg.LogLevel)
    (reqs : list loki.PushRequest) (err : loki.error) :
  loki.Client_ok c → pkg.declared level →
  loki.pushLogWithLevel c now message level order = Ok (c', reqs, err) →
  loki.Client_ok c'.
Proof.
  intros [Hok Hlv] Hd. rewrite (pushLogWithLevel_eq c now message level order Hok).
  cbv zeta. repeat case_decide; [| | |]; try done; intros [= <- _ _].
  - by split.
  - split; [exact Hok|by apply Forall_nil].
  - split; [exact Hok|]. cbn. apply Forall_app. split; [done|]. by apply Forall_singleton.
Qed.

Lemma exec_Client_ok (w w' : loki.World) (ev : loki.Event) :
  loki.Client_ok (loki.client w) → loki.exec w ev = Ok w' →
  loki.Client_ok (loki.client w').
Proof.
  intros Hok. destruct ev as [now|i|m now message order|i now after order]; cbn.
  - unfold loki.Start. destruct (now <? _); [done|].
    destruct (_ <=? 0); [done|]. by intros [= <-].
  - unfold loki.Stop. destruct (_ !! i); [|done]. by intros [= <-].
  - unfold loki.log. destruct (now <? _); [done|].
    destruct (loki.method m _ now message order) as [[[c' reqs] err]| |] eqn:Hm;
      cbn; [|done..].
    intros [= <-]. cbn.
    destruct m; (eapply pushLogWithLevel_Client_ok; [exact Hok| |exact Hm]);
      unfold pkg.declared, pkg.LevelDebug, pkg.LevelInfo, pkg.LevelWarn, pkg.LevelError;
      lia.
  - unfold loki.tick. destruct (_ !! i); [|done].
    destruct (_ || _); [done|]. destruct (_ >=? _).
    + destruct (loki.flush _ order) as [[c' reqs]| |] eqn:Hf; cbn; [|done..].
      intros [= <-]. cbn. by eapply flush_Client_ok.
    + by intros [= <-].
Qed.

Lemma run_Client_ok (evs : list loki.Event) : ∀ w w' : loki.World,
  loki.Client_ok (loki.client w) → loki.run w evs = Ok w' →
  loki.Client_ok (loki.client w').
Proof.
  induction evs as [|ev evs IH]; intros w w' Hok; cbn.
  - by intros [= <-].
  - destruct (loki.exec w ev) as [w1| |] eqn:He; cbn; [|done..].
    apply IH. by eapply exec_Client_ok.
Qed.

Lemma NewWorld_Client_ok (cfg : loki.ClientConfig) (now : Z)
    (evs : list loki.Event) (w : loki.World) :
  (w0 ← loki.NewWorld cfg now; loki.run w0 evs) = Ok w →
  loki.Client_ok (loki.client w).
Proof.
  unfold loki.NewWorld. destruct (loki.NewClient cfg) as [c|] eqn:Hc; cbn; [|done].
  apply run_Client_ok. cbn. apply NewClient_inv in Hc as [HB ->]. cbn.
  split; [exact HB|]. by apply Forall_nil.
Qed.

(** The loop of the flush without levels fills every slot in order. *)
Lemma fill_eq (entries : list pkg.LogEntry) :
  ∀ (vals : list (string * string)) (i : nat),
  length vals = (i + length entries)%nat →
  loki_plain.fill vals i entries = Some (take i vals ++ (loki.record <$> entries))%list.
Proof.
  induction entries as [|e es IH]; intros vals i Hlen; cbn in *.
  - rewrite app_nil_r, take_ge by lia. done.
  - rewrite bool_decide_eq_true_2 by lia.
    rewrite IH by (rewrite length_insert; lia).
    rewrite (take_S_r _ _ (loki.record e)) by (apply list_lookup_insert_eq; lia).
    rewrite take_insert_ge by lia. by rewrite <- app_assoc.
Qed.

Lemma plain_flush_eq (c : loki_plain.Client) :
  pkg.Buffer_ok (loki_plain.buffer c) →
  let pending := pkg.elems (pkg.entries (loki_plain.buffer c)) in
  let c' := {| loki_plain.config := loki_plain.config c;
               loki_plain.buffer :=
                 {| pkg.entries :=
                      {| pkg.elems := []; pkg.cap := pkg.size (loki_plain.buffer c) |};
                    pkg.size := pkg.size (loki_plain.buffer c) |} |} in
  loki_plain.flush c =
  if decide (pending = []) then Some (c', [])
  else Some (c', [ {| loki.Streams :=
                        [ {| loki.stream := loki_plain.Labels (loki_plain.config c);
                             loki.values := loki.record <$> pending |} ] |} ]).
Proof.
  intros Hok pending c'. unfold loki_plain.flush. rewrite (Flush_eq _ Hok). cbn.
  unfold pkg.len. fold pending. destruct pending as [|e es] eqn:Hp.
  - cbn. by rewrite decide_True.
  - rewrite decide_False by done.
    destruct (Z.eqb_spec (Z.of_nat (length (e :: es))) 0) as [Hl|_]; [cbn in Hl; lia|].
    rewrite fill_eq by (rewrite length_replicate; lia). done.
Qed.

(** C8. A flush of a buffer that holds entries hands one request to
    [send]. With levels: for any enumeration [order] of the groups, the
    request has one stream per level present among the drained entries
    (each level once), labelled with the configured labels and
    [detected_level], and holding that level's records (decimal timestamp,
    message) in the order the entries were drained; the label sets of the
    streams are pairwise distinct, the drained entries having declared
    levels, as the pending entries of every program have. Without levels:
    the request has a single stream, labelled with the configured labels
    and holding the records of all drained entries in order; labels
    [{"job": "test"}] and entries (1000, "a"), (2000, "b") give the values
    ("1000", "a"), ("2000", "b"). *)
Theorem flush_builds_one_stream_per_label_set :
  (∀ (c : loki.Client) (order : list pkg.LogLevel),
     let pending := pkg.elems (pkg.entries (loki.buffer c)) in
     pkg.Buffer_ok (loki.buffer c) → pending ≠ [] →
     (∃ c' reqs, loki.flush c (remove_dups (pkg.Level <$> pending)) = Ok (c', reqs))
     ∧ ∀ c' reqs, loki.flush c order = Ok (c', reqs) →
         pkg.elems (pkg.entries (loki.buffer c')) = []
         ∧ NoDup order
         ∧ (∀ level, level ∈ order ↔ ∃ e, e ∈ pending ∧ pkg.Level e = level)
         ∧ reqs = [ {| loki.Streams :=
                         (λ level,
                            {| loki.stream :=
                                 <[loki.detected_level := pkg.LevelToString level]>
                                   (loki.Labels (loki.config c));
                               loki.values :=
                                 loki.record <$> pkg.with_level level pending |})
                         <$> order |} ]
         ∧ (Forall (λ e, pkg.declared (pkg.Level e)) pending →
            ∀ req, req ∈ reqs → NoDup (loki.stream <$> loki.Streams req)))
  ∧ (∀ (cfg : loki.ClientConfig) (now : Z) (evs : list loki.Event) (w : loki.World),
       (w0 ← loki.NewWorld cfg now; loki.run w0 evs) = Ok w →
       pkg.Buffer_ok (loki.buffer (loki.client w))
       ∧ Forall (λ e, pkg.declared (pkg.Level e))
                (pkg.elems (pkg.entries (loki.buffer (loki.client w)))))
  ∧ (∀ c : loki_plain.Client,
       let pending := pkg.elems (pkg.entries (loki_plain.buffer c)) in
       pkg.Buffer_ok (loki_plain.buffer c) → pending ≠ [] →
       ∃ c', loki_plain.flush c =
               Some (c', [ {| loki.Streams :=
                               [ {| loki.stream := loki_plain.Labels (loki_plain.config c);
                                    loki.values := loki.record <$> pending |} ] |} ])
             ∧ pkg.elems (pkg.entries (loki_plain.buffer c')) = []
             ∧ (loki_plain.Labels (loki_plain.config c) = {[ "job" := "test" ]} →
                (λ e, (pkg.Timestamp e, pkg.Message e)) <$> pending
                  = [(1000, "a"); (2000, "b")] →
                loki_plain.flush c =
                  Some (c', [ {| loki.Streams :=
                                  [ {| loki.stream := {[ "job" := "test" ]};
                                       loki.values := [("1000", "a"); ("2000", "b")] |} ] |} ]))).
Proof.
  split; [|split].
  - intros c order pending Hok Hne. split.
    + rewrite (flush_eq c _ Hok). cbn. fold pending.
      rewrite decide_False by done.
      rewrite decide_True by apply enumerates_remove_dups. eauto.
    + intros c' reqs. rewrite (flush_eq c _ Hok). cbn. fold pending.
      rewrite decide_False by done. case_decide as Hen; [|done].
      intros [= <- <-]. cbn. apply enumerates_spec in Hen as [Hnd Hin].
      assert (∀ level, level ∈ order ↔ ∃ e, e ∈ pending ∧ pkg.Level e = level) as Hlv.
      { intros level. rewrite Hin, levelGroups_keys, list_elem_of_fmap.
        split; intros (e & ? & ?); exists e; done. }
      assert (loki.streams_of (loki.Labels (loki.config c)) (loki.levelGroups pending) order
              = (λ level,
                   {| loki.stream :=
                        <[loki.detected_level := pkg.LevelToString level]>
                          (loki.Labels (loki.config c));
                      loki.values := loki.record <$> pkg.with_level level pending |})
                <$> order) as Hst.
      { unfold loki.streams_of. apply list_fmap_ext. intros _ level _.
        by rewrite levelGroups_values. }
      split; [done|]. split; [done|]. split; [done|]. split; [by rewrite Hst|].
      intros Hnamed req ->%list_elem_of_singleton. cbn. unfold loki.streams_of.
      rewrite <- list_fmap_compose. apply NoDup_fmap_2_strong; [|done].
      intros l1 l2 [e1 [He1 <-]]%Hlv [e2 [He2 <-]]%Hlv Heq. cbn in Heq.
      rewrite Forall_forall in Hnamed.
      apply LevelToString_inj; [by apply Hnamed..|].
      apply (f_equal (λ m, m !! loki.detected_level)) in Heq.
      rewrite !lookup_insert_eq in Heq. congruence.
  - intros cfg now evs w Hr. by apply NewWorld_Client_ok in Hr.
  - intros c pending Hok Hne. eexists. rewrite (plain_flush_eq c Hok). cbn. fold pending.
    rewrite decide_False by done. split; [done|]. split; [done|].
    intros -> Hp. do 6 f_equal.
    destruct pending as [|[t1 m1 l1] [|[t2 m2 l2] [|??]]]; try done.
    cbn in Hp. injection Hp as -> -> -> ->. reflexivity.
Qed.

(** C7. A call of [pushLogWithLevel] with a level below the configured
    [MinLevel] returns nil and changes nothing: no entry is added and
    nothing is sent. With a level at or above [MinLevel] it adds one entry,
    carrying the message and the level, after the pending ones: below the
    batch size the entry stays pending and nothing is sent; at the batch
    size the pending entries, the new one last, are drained into one
    request. With [MinLevel] at [LevelWarn] and an empty buffer, [Debug]
    and [Info] leave the buffer empty and [Warn] leaves its one entry. *)
Theorem pushLogWithLevel_filters_by_level (c : loki.Client) (now : Z)
    (message : string) (level : pkg.LogLevel) (order : list pkg.LogLevel) :
  let entry := {| pkg.Timestamp := now; pkg.Message := message; pkg.Level := level |} in
  let pending := (pkg.elems (pkg.entries (loki.buffer c)) ++ [entry])%list in
  (level < loki.MinLevel (loki.config c) →
     loki.pushLogWithLevel c now message level order = Ok (c, [], None))
  ∧ (loki.MinLevel (loki.config c) ≤ level → pkg.Buffer_ok (loki.buffer c) →
     (Z.of_nat (length pending) < pkg.size (loki.buffer c) →
        ∃ c', loki.pushLogWithLevel c now message level order = Ok (c', [], None)
              ∧ loki.config c' = loki.config c
              ∧ pkg.size (loki.buffer c') = pkg.size (loki.buffer c)
              ∧ pkg.elems (pkg.entries (loki.buffer c')) = pending)
     ∧ (pkg.size (loki.buffer c) ≤ Z.of_nat (length pending) →
        loki.enumerates order (loki.levelGroups pending) →
        ∃ c', loki.pushLogWithLevel c now message level order =
                Ok (c', [ {| loki.Streams :=
                               loki.streams_of (loki.Labels (loki.config c))
                                 (loki.levelGroups pending) order |} ], None)
              ∧ loki.config c' = loki.config c
              ∧ pkg.size (loki.buffer c') = pkg.size (loki.buffer c)
              ∧ pkg.elems (pkg.entries (loki.buffer c')) = []))
  ∧ (loki.MinLevel (loki.config c) = pkg.LevelWarn → pkg.Buffer_ok (loki.buffer c) →
     pkg.elems (pkg.entries (loki.buffer c)) = [] → 1 < pkg.size (loki.buffer c) →
     loki.Debug c now message order = Ok (c, [], None)
     ∧ loki.Info c now message order = Ok (c, [], None)
     ∧ ∃ c', loki.Warn c now message order = Ok (c', [], None)
             ∧ pkg.elems (pkg.entries (loki.buffer c')) =
                 [ {| pkg.Timestamp := now; pkg.Message := message;
                      pkg.Level := pkg.LevelWarn |} ]).
Proof.
  intros entry pending. split; [|split].
  - intros Hlt. unfold loki.pushLogWithLevel.
    by destruct (Z.ltb_spec level (loki.MinLevel (loki.config c))); [|lia].
  - intros Hge Hok. rewrite (pushLogWithLevel_eq c now message level order Hok).
    cbv zeta. fold entry pending. rewrite decide_False by lia. split.
    + intros Hlt. rewrite decide_False by lia. eexists. split; [done|]. cbn. done.
    + intros Hsz Hen. rewrite decide_True by done. rewrite decide_True by done.
      eexists. split; [done|]. cbn. done.
  - intros Hmin Hok Hempty Hsz. unfold loki.Debug, loki.Info, loki.Warn.
    rewrite !(pushLogWithLevel_eq c now message _ order Hok). cbv zeta.
    rewrite Hmin, Hempty. unfold pkg.LevelDebug, pkg.LevelInfo, pkg.LevelWarn. cbn.
    rewrite !decide_True by lia. split; [done|]. split; [done|].
    rewrite decide_False by lia. rewrite decide_False by lia.
    eexists. split; [done|]. cbn. by rewrite Hempty.
Qed.

End Payload.

(** ** The worker's life cycle *)
Section Lifecycle.
Context `{!GoRuntime}.

Lemma exec_no_worker (w w' : loki.World) (ev : loki.Event) :
  loki.workers w = [] → loki.starts_worker ev = false → loki.exec w ev = Ok w' →
  loki.workers w' = [].
Proof.
  intros Hw. destruct ev as [now|i|m now message order|i now after order];
    cbn; [done| | |].
  - unfold loki.Stop. by rewrite Hw, lookup_nil.
  - unfold loki.log. destruct (now <? _); [done|].
    destruct (loki.method m _ now message order) as [[[c' reqs] err]| |];
      cbn; [|done..].
    by intros _ [= <-].
  - unfold loki.tick. by rewrite Hw, lookup_nil.
Qed.

(** Workers come from [Start] alone. *)
Lemma run_no_worker (evs : list loki.Event) : ∀ w w' : loki.World,
  loki.workers w = [] → forallb (λ ev, negb (loki.starts_worker ev)) evs = true →
  loki.run w evs = Ok w' → loki.workers w' = [].
Proof.
  induction evs as [|ev evs IH]; intros w w' Hw; cbn.
  - by intros _ [= <-].
  - intros [Hev Hevs]%andb_prop.
    destruct (loki.exec w ev) as [w1| |] eqn:He; cbn; [|done..].
    apply IH; [|done]. eapply exec_no_worker; [done| |done]. by apply negb_true_iff.
Qed.

(** C4, as the code has it. [Stop] never panics, and it returns exactly
    when a running worker takes its signal: that worker exits, the other
    workers keep running. Once the only worker has exited, no later [Stop]
    returns, however the program goes on, as long as no worker is started
    again: its caller stays blocked on the channel. *)
Theorem Stop_returns_only_to_a_running_worker (w : loki.World) :
  (∀ i, loki.Stop w i ≠ Panic)
  ∧ ((∃ i w', loki.Stop w i = Ok w') ↔ loki.workers w ≠ [])
  ∧ (∀ i w', loki.Stop w i = Ok w' →
       S (length (loki.workers w')) = length (loki.workers w))
  ∧ (∀ i w' evs w'',
       length (loki.workers w) = 1%nat → loki.Stop w i = Ok w' →
       forallb (λ ev, negb (loki.starts_worker ev)) evs = true →
       loki.run w' evs = Ok w'' →
       ∀ j, loki.Stop w'' j = Disabled).
Proof.
  split; [|split; [|split]].
  - intros i. unfold loki.Stop. by destruct (_ !! i).
  - split.
    + intros (i & w' & Hs). unfold loki.Stop in Hs.
      destruct (loki.workers w); [by rewrite lookup_nil in Hs|done].
    + intros Hne. exists 0%nat. unfold loki.Stop.
      destruct (loki.workers w) as [|wk wks]; [done|]. cbn. eauto.
  - intros i w'. unfold loki.Stop. destruct (_ !! i) as [wk|] eqn:Hi; [|done].
    intros [= <-]. cbn.
    apply lookup_lt_Some in Hi. rewrite length_delete by (by apply lookup_lt_is_Some_2).
    lia.
  - intros i w' evs w'' Hone Hs Hevs Hr j.
    assert (loki.workers w' = []) as Hnil.
    { unfold loki.Stop in Hs. destruct (_ !! i) as [wk|] eqn:Hi; [|done].
      injection Hs as <-. cbn. apply length_zero_iff_nil.
      apply lookup_lt_Some in Hi.
      assert (S (length (delete i (loki.workers w))) = length (loki.workers w)); [|lia].
      rewrite length_delete by (by apply lookup_lt_is_Some_2). lia. }
    unfold loki.Stop. by rewrite (run_no_worker evs w' w'' Hnil Hevs Hr), lookup_nil.
Qed.

End Lifecycle.

(** ** More of the buffer, the constructor and the worker *)
Section MoreBuffer.
Context `{!GoRuntime}.

(** [LevelToString] gives the four declared levels four different names
    and every other level the name "unknown": among declared levels the
    name determines the level. *)
Theorem LevelToString_names_declared_levels (l1 l2 : pkg.LogLevel) :
  (pkg.LevelToString l1 = "unknown" ↔ ¬ pkg.declared l1)
  ∧ (pkg.declared l1 → pkg.declared l2 →
     pkg.LevelToString l1 = pkg.LevelToString l2 → l1 = l2)
  ∧ pkg.LevelToString pkg.LevelDebug = "debug"
  ∧ pkg.LevelToString pkg.LevelInfo = "info"
  ∧ pkg.LevelToString pkg.LevelWarn = "warn"
  ∧ pkg.LevelToString pkg.LevelError = "error".
Proof.
  split; [|split; [apply LevelToString_inj|done]].
  unfold pkg.declared. split.
  - intros Hu Hd.
    assert (l1 = 0 ∨ l1 = 1 ∨ l1 = 2 ∨ l1 = 3) as [-> | [-> | [-> | ->]]] by lia;
      discriminate Hu.
  - intros Hn. destruct l1 as [|p|p]; [lia| |done].
    destruct p as [[|[]|]|[[]|[]|]|]; try done; lia.
Qed.

(** A run of [Add]s that fits the capacity of the slice keeps that
    capacity: [append] does not ask the runtime to grow it. *)
Lemma adds_keep_capacity (es : list pkg.LogEntry) : ∀ b : pkg.Buffer,
  pkg.len (pkg.entries b) + Z.of_nat (length es) ≤ pkg.cap (pkg.entries b) →
  ∃ b' rs,
    pkg.calls b (pkg.CallAdd <$> es) = Some (b', rs)
    ∧ pkg.cap (pkg.entries b') = pkg.cap (pkg.entries b)
    ∧ pkg.elems (pkg.entries b') = (pkg.elems (pkg.entries b) ++ es)%list.
Proof. induction es as [|e es IH]; intros b Hfit.
  - exists b, []. cbn. by rewrite app_nil_r.
  - cbn [fmap list_fmap pkg.calls]. rewrite Add_eq.
    set (b1 := {| pkg.entries := pkg.append (pkg.entries b) e; pkg.size := pkg.size b |}).
    assert (pkg.cap (pkg.entries b1) = pkg.cap (pkg.entries b)) as Hcap.
    { cbn. cbn in Hfit. destruct (Z.leb_spec (pkg.len (pkg.entries b) + 1)
                                     (pkg.cap (pkg.entries b))); [done|lia]. }
    destruct (IH b1) as (b' & rs & Hc & Hcap' & Hel).
    { rewrite Hcap. unfold pkg.len in *. cbn in *. rewrite length_app. cbn. lia. }
    rewrite Hc. cbn. eexists _, _. split; [done|]. split; [congruence|].
    rewrite Hel. cbn. by rewrite <- app_assoc.
Qed.

(** The slice [NewBuffer] and [Flush] allocate is used as it is: while a
    run of [Add]s fits the capacity the capacity stays, whatever the
    growth rule of the runtime, so after a [Flush] up to [size] entries are
    added into the slice allocated with capacity [size]. *)
Theorem Add_keeps_capacity_while_it_fits (b : pkg.Buffer) (es : list pkg.LogEntry) :
  (pkg.len (pkg.entries b) + Z.of_nat (length es) ≤ pkg.cap (pkg.entries b) →
   ∃ b' rs,
     pkg.calls b (pkg.CallAdd <$> es) = Some (b', rs)
     ∧ pkg.cap (pkg.entries b') = pkg.cap (pkg.entries b))
  ∧ (pkg.Buffer_ok b → Z.of_nat (length es) ≤ pkg.size b →
     ∃ b' rs,
       pkg.calls b (pkg.CallFlush :: (pkg.CallAdd <$> es)) = Some (b', rs)
       ∧ pkg.elems (pkg.entries b') = es
       ∧ pkg.cap (pkg.entries b') = pkg.size b).
Proof.
  split.
  - intros Hfit. destruct (adds_keep_capacity es b Hfit) as (b' & rs & Hc & Hcap & _).
    eauto.
  - intros Hok Hlen. cbn [pkg.calls]. rewrite (Flush_eq b Hok). cbn.
    set (b1 := {| pkg.entries := _; pkg.size := pkg.size b |}).
    destruct (adds_keep_capacity es b1) as (b' & rs & Hc & Hcap & Hel).
    { unfold pkg.len. cbn. lia. }
    rewrite Hc. cbn. eexists _, _. split; [done|]. split; [exact Hel|exact Hcap].
Qed.

(** [NewClient] panics exactly when the batch size, after the default, is
    one [make] refuses: a negative [BatchSize] always panics. A client it
    returns has an empty buffer of a size of at least 1, allocated with
    that capacity. *)
Theorem NewClient_panics_on_bad_batch_size (cfg : loki.ClientConfig) :
  let B := if decide (loki.BatchSize cfg = 0) then 100 else loki.BatchSize cfg in
  (loki.NewClient cfg = None ↔ B < 0 ∨ maxcap < B)
  ∧ (loki.BatchSize cfg < 0 → loki.NewClient cfg = None)
  ∧ (∀ c, loki.NewClient cfg = Some c →
       1 ≤ pkg.size (loki.buffer c) ≤ maxcap
       ∧ pkg.elems (pkg.entries (loki.buffer c)) = []
       ∧ pkg.cap (pkg.entries (loki.buffer c)) = pkg.size (loki.buffer c)).
Proof.
  intros B.
  assert (loki.NewClient cfg = None ↔ B < 0 ∨ maxcap < B) as Hiff.
  { split.
    - intros Hnone. destruct (decide (0 ≤ B ≤ maxcap)) as [Hr|Hr]; [|lia].
      exfalso. subst B. destruct cfg as [u l bs mn mx ml]. cbn in *.
      unfold loki.NewClient in Hnone. cbn in Hnone.
      destruct (Z.eqb_spec bs 0); cbn in Hnone; (destruct (Z.eqb_spec mn 0); cbn in Hnone);
        (destruct (Z.eqb_spec mx 0); cbn in Hnone); (destruct (Z.eqb_spec ml 0); cbn in Hnone);
        unfold pkg.NewBuffer in Hnone;
        (rewrite make_Some in Hnone by (case_decide; lia)); done.
    - intros Hbad. destruct (loki.NewClient cfg) as [c|] eqn:Hc; [|done].
      apply NewClient_inv in Hc as [Hr _]. fold B in Hr. lia. }
  split; [exact Hiff|]. split.
  - intros Hneg. apply Hiff. left. subst B. case_decide; lia.
  - intros c Hc. apply NewClient_inv in Hc as [Hr ->]. fold B in Hr. cbn. fold B.
    split; [|done]. subst B. case_decide; lia.
Qed.

End MoreBuffer.

Section MoreLifecycle.
Context `{!GoRuntime}.

Lemma wrap64_small (z : Z) : - 2 ^ 63 ≤ z < 2 ^ 63 → wrap64 z = z.
Proof. intros Hz. unfold wrap64. rewrite Z.mod_small; lia. Qed.

(** The worker [Start] launches makes its ticker from
    [time.Second * MaxWaitTime]. For 1 to 9223372036 seconds the product
    is exact and the worker runs, with [lastFlush] at the instant it
    started. For a [MaxWaitTime] that is negative (or zero) the interval is
    not positive and [time.NewTicker] panics; at 9223372037 seconds the
    product overflows 64 bits to a negative interval, and it panics too. *)
Theorem Start_panics_on_bad_MaxWaitTime (w : loki.World) (now : Z) :
  let m := loki.MaxWaitTime (loki.config (loki.client w)) in
  loki.clock w ≤ now →
  (1 ≤ m ≤ 9223372036 →
     loki.Start w now =
     Ok {| loki.client := loki.client w;
           loki.workers :=
             (loki.workers w ++ [ {| loki.ticker := 1000000000 * m;
                                     loki.lastFlush := now |} ])%list;
           loki.sent := loki.sent w;
           loki.clock := now |})
  ∧ (- 9223372036 ≤ m ≤ 0 → loki.Start w now = Panic)
  ∧ (m = 9223372037 → loki.Start w now = Panic).
Proof.
  intros m Hclock. unfold loki.Start. fold m.
  destruct (Z.ltb_spec now (loki.clock w)); [lia|].
  split; [|split].
  - intros Hm. unfold seconds, Second. rewrite wrap64_small by lia.
    destruct (Z.leb_spec (1000000000 * m) 0); [lia|done].
  - intros Hm. unfold seconds, Second. rewrite wrap64_small by lia.
    destruct (Z.leb_spec (1000000000 * m) 0); [done|lia].
  - intros ->. reflexivity.
Qed.

(** What a tick does. Before [MaxWaitTime] has passed since the worker's
    [lastFlush], nothing. Once it has: the buffer is drained, the pending
    entries (if any) are sent in one request stamped with the instant of
    the test, and [lastFlush] becomes the instant read after the flush,
    also when the buffer was empty and nothing was sent; the other workers
    and the configuration are untouched. *)
Theorem tick_flushes_when_due (w : loki.World) (i : nat) (wk : loki.Worker)
    (now after : Z) (order : list pkg.LogLevel) :
  let pending := pkg.elems (pkg.entries (loki.buffer (loki.client w))) in
  let due := seconds (loki.MaxWaitTime (loki.config (loki.client w)))
               ≤ Since (loki.lastFlush wk) now in
  loki.workers w !! i = Some wk → loki.clock w ≤ now ≤ after →
  pkg.Buffer_ok (loki.buffer (loki.client w)) →
  (¬ due →
     loki.tick w i now after order =
     Ok {| loki.client := loki.client w; loki.workers := loki.workers w;
           loki.sent := loki.sent w; loki.clock := now |})
  ∧ (due → pending = [] ∨ loki.enumerates order (loki.levelGroups pending) →
     ∃ w', loki.tick w i now after order = Ok w'
           ∧ pkg.elems (pkg.entries (loki.buffer (loki.client w'))) = []
           ∧ loki.config (loki.client w') = loki.config (loki.client w)
           ∧ loki.workers w' =
               <[i := {| loki.ticker := loki.ticker wk; loki.lastFlush := after |}]>
                 (loki.workers w)
           ∧ loki.clock w' = after
           ∧ loki.sent w' =
               (loki.sent w ++
                if decide (pending = []) then []
                else [ (now, {| loki.Streams :=
                                  loki.streams_of (loki.Labels (loki.config (loki.client w)))
                                    (loki.levelGroups pending) order |}) ])%list).
Proof.
  intros pending due Hi Hclock Hok. unfold loki.tick. rewrite Hi.
  destruct (Z.ltb_spec now (loki.clock w)); [lia|].
  destruct (Z.ltb_spec after now); [lia|]. cbn [orb].
  rewrite Z.geb_leb. fold due.
  destruct (Z.leb_spec (seconds (loki.MaxWaitTime (loki.config (loki.client w))))
                       (Since (loki.lastFlush wk) now)) as [Hdue|Hearly].
  - split; [intros Hn; by destruct Hn|]. intros _ Hor.
    rewrite (flush_eq _ order Hok). cbv zeta. fold pending.
    destruct (decide (pending = [])) as [Hp|Hp].
    + cbn. eexists. split; [done|]. cbn. by rewrite app_nil_r.
    + destruct Hor as [?|Hen]; [done|]. rewrite decide_True by done. cbn.
      eexists. split; [done|]. cbn. done.
  - split; [done|]. intros Hd. unfold due in Hd. lia.
Qed.

(** Nothing keeps [Start] from being called twice: every [Start] adds a
    worker and every [Stop] that returns removes one, so along a run the
    number of running workers grows by the [Start]s and shrinks by the
    [Stop]s. *)
Theorem workers_are_starts_minus_stops (evs : list loki.Event) (w w' : loki.World) :
  loki.run w evs = Ok w' →
  (length (loki.workers w') + length (List.filter stops_worker evs)
   = length (loki.workers w) + length (List.filter loki.starts_worker evs))%nat.
Proof.
  revert w. induction evs as [|ev evs IH]; intros w; cbn [loki.run].
  - intros [= <-]. cbn. lia.
  - destruct (loki.exec w ev) as [w1| |] eqn:He; [|done..].
    intros Hr. apply IH in Hr.
    destruct ev as [now|i|m now message order|i now after order];
      cbn [List.filter stops_worker loki.starts_worker length]; cbn in He.
    + unfold loki.Start in He. destruct (now <? _); [done|].
      destruct (_ <=? 0); [done|]. injection He as <-. cbn [loki.workers] in Hr.
      rewrite length_app in Hr. cbn [length] in Hr. lia.
    + unfold loki.Stop in He. destruct (_ !! i) as [wk|] eqn:Hi; [|done].
      injection He as <-. cbn [loki.workers] in Hr. apply lookup_lt_Some in Hi.
      rewrite length_delete in Hr by (by apply lookup_lt_is_Some_2). lia.
    + unfold loki.log in He. destruct (now <? _); [done|].
      destruct (loki.method m _ now message order) as [[[c' reqs] err]| |];
        cbn in He; [|done..].
      injection He as <-. cbn [loki.workers] in Hr. lia.
    + unfold loki.tick in He. destruct (_ !! i) as [wk|]; [|done].
      destruct (_ || _); [done|]. destruct (_ >=? _).
      * destruct (loki.flush _ order) as [[c' reqs]| |]; cbn in He; [|done..].
        injection He as <-. cbn [loki.workers] in Hr. rewrite length_insert in Hr. lia.
      * injection He as <-. cbn [loki.workers] in Hr. lia.
Qed.

(** The record [flush] builds determines the timestamp and the message
    of its entry: two entries give the same record only if they agree on
    both. *)
Theorem record_determines_entry (e1 e2 : pkg.LogEntry) :
  loki.record e1 = loki.record e2 ↔
  pkg.Timestamp e1 = pkg.Timestamp e2 ∧ pkg.Message e1 = pkg.Message e2.
Proof.
  unfold loki.record, FormatInt. split.
  - intros [= Ht Hm]. split; [|done]. by apply (inj pretty).
  - intros [-> ->]. done.
Qed.

End MoreLifecycle.

(** ** What is sent, over a flush and over a run *)
Section Delivery.
Context `{!GoRuntime}.

Lemma flush_Buffer_ok (c : loki.Client) (order : list pkg.LogLevel)
    (r : loki.Client * list loki.PushRequest) :
  loki.flush c order = Ok r → pkg.Buffer_ok (loki.buffer c).
Proof.
  unfold loki.flush, pkg.Flush. destruct (pkg.make _) as [s|] eqn:Hm; [|done].
  intros _. by apply make_inv in Hm as [? _].
Qed.

Lemma fmap_concat {A B} (f : A → B) (ls : list (list A)) :
  concat (fmap (M := list) f <$> ls) = f <$> concat ls.
Proof. induction ls as [|l ls IH]; cbn; [done|]. by rewrite fmap_app, IH. Qed.

(** Grouping by level and enumerating the levels loses and repeats nothing. *)
Lemma with_level_concat (order : list pkg.LogLevel) : ∀ es : list pkg.LogEntry,
  NoDup order → (∀ e, e ∈ es → pkg.Level e ∈ order) →
  concat ((λ level, pkg.with_level level es) <$> order) ≡ₚ es.
Proof.
  induction order as [|l order IH]; intros es Hnd Hcov.
  - destruct es as [|e es]; [done|]. specialize (Hcov e). rewrite elem_of_nil in Hcov.
    destruct Hcov. by left.
  - apply NoDup_cons in Hnd as [Hl Hnd]. cbn.
    etrans; [|apply (filter_app_complement (λ e, pkg.Level e = l) es)].
    unfold pkg.with_level at 1. f_equiv.
    rewrite <- (IH (filter (λ e, ¬ pkg.Level e = l) es) Hnd).
    + apply reflexive_eq. f_equal. apply list_fmap_ext. intros _ l' Hl'%list_elem_of_lookup_2.
      unfold pkg.with_level. rewrite list_filter_filter. apply list_filter_iff.
      intros e. split; [|tauto]. intros He. split; [done|]. intros Hl2.
      apply Hl. by rewrite <- Hl2, He.
    + intros e [Hne He]%list_elem_of_filter. apply Hcov in He.
      apply elem_of_cons in He as [?|?]; [congruence|done].
Qed.

Lemma flush_delivers (c c' : loki.Client) (order : list pkg.LogLevel)
    (reqs : list loki.PushRequest) :
  loki.flush c order = Ok (c', reqs) →
  concat (request_records <$> reqs)
    ≡ₚ loki.record <$> pkg.elems (pkg.entries (loki.buffer c))
  ∧ pkg.elems (pkg.entries (loki.buffer c')) = []
  ∧ pkg.size (loki.buffer c') = pkg.size (loki.buffer c)
  ∧ Forall carries_records reqs
  ∧ (length reqs ≤ 1)%nat
  ∧ (reqs = [] ↔ pkg.elems (pkg.entries (loki.buffer c)) = []).
Proof.
  intros Hf. pose proof (flush_Buffer_ok _ _ _ Hf) as Hok. revert Hf.
  rewrite (flush_eq c order Hok). cbv zeta.
  set (pending := pkg.elems (pkg.entries (loki.buffer c))).
  destruct (decide (pending = [])) as [Hp|Hp].
  - intros [= <- <-]. rewrite Hp. cbn. repeat split; auto.
  - case_decide as Hen; [|done]. intros [= <- <-]. cbn.
    apply enumerates_spec in Hen as [Hnd Hin].
    split; [|split; [done|split; [done|split; [|split; [lia|by split]]]]].
    + rewrite app_nil_r. unfold request_records, loki.streams_of. cbn.
      rewrite <- list_fmap_compose.
      rewrite (list_fmap_ext _ (fmap loki.record ∘ (λ level, pkg.with_level level pending))).
      2:{ intros _ level _. cbn. apply levelGroups_values. }
      rewrite list_fmap_compose, fmap_concat. f_equiv.
      apply with_level_concat; [done|].
      intros e He. apply Hin, levelGroups_keys, list_elem_of_fmap. eauto.
    + apply Forall_singleton. split; cbn.
      * unfold loki.streams_of. destruct order as [|l order]; [|done].
        destruct pending as [|e es]; [done|].
        assert (pkg.Level e ∈ @nil pkg.LogLevel) as Hbad%elem_of_nil; [|done].
        apply Hin, levelGroups_keys. cbn. by left.
      * unfold loki.streams_of. apply Forall_fmap, Forall_forall. intros level Hl. cbn.
        split; [|by rewrite lookup_insert_eq].
        rewrite levelGroups_values.
        apply Hin, levelGroups_keys, list_elem_of_fmap in Hl as (e & -> & He).
        intros Hnil%fmap_nil_inv. unfold pkg.with_level in Hnil.
        by apply (filter_nil_not_elem_of _ _ e) in Hnil.
Qed.


#[local] Arguments records_sent : simpl never.

Lemma records_sent_app (sent : list (Z * loki.PushRequest)) (now : Z)
    (reqs : list loki.PushRequest) :
  records_sent (sent ++ (pair now <$> reqs))
  = (records_sent sent ++ concat (request_records <$> reqs))%list.
Proof.
  unfold records_sent. rewrite fmap_app, concat_app. f_equal.
  rewrite <- list_fmap_compose. done.
Qed.

Lemma method_eq (m : loki.Method) (c : loki.Client) (now : Z) (message : string)
    (order : list pkg.LogLevel) :
  loki.method m c now message order
  = loki.pushLogWithLevel c now message (method_level m) order.
Proof. by destruct m. Qed.

Lemma pushLogWithLevel_delivers (c c' : loki.Client) (now : Z) (message : string)
    (level : pkg.LogLevel) (order : list pkg.LogLevel)
    (reqs : list loki.PushRequest) (err : loki.error) :
  loki.pushLogWithLevel c now message level order = Ok (c', reqs, err) →
  (concat (request_records <$> reqs)
     ++ (loki.record <$> pkg.elems (pkg.entries (loki.buffer c'))))%list
    ≡ₚ ((loki.record <$> pkg.elems (pkg.entries (loki.buffer c)))
         ++ (loki.record <$> (if level <? loki.MinLevel (loki.config c) then []
                              else [entry now message level])))%list
  ∧ Forall carries_records reqs.
Proof.
  unfold loki.pushLogWithLevel.
  destruct (level <? loki.MinLevel (loki.config c)).
  - intros [= <- <- _]. cbn. by rewrite app_nil_r.
  - rewrite Add_eq. case_bool_decide.
    + destruct (loki.flush _ order) as [[c2 reqs2]| |] eqn:Hf; cbn; [|done..].
      intros [= <- <- _]. apply flush_delivers in Hf as (Hperm & Hnil & _ & Hcar & _).
      cbn in Hperm. rewrite Hnil, Hperm. cbn. rewrite app_nil_r, fmap_app. done.
    + intros [= <- <- _]. cbn. by rewrite fmap_app.
Qed.

Lemma exec_delivers (w w' : loki.World) (ev : loki.Event) :
  loki.exec w ev = Ok w' →
  (records_sent (loki.sent w')
     ++ (loki.record <$> pkg.elems (pkg.entries (loki.buffer (loki.client w')))))%list
    ≡ₚ (records_sent (loki.sent w)
         ++ (loki.record <$> pkg.elems (pkg.entries (loki.buffer (loki.client w))))
         ++ (loki.record <$> accepted (loki.MinLevel (loki.config (loki.client w))) [ev]))%list
  ∧ (Forall (λ s, carries_records s.2) (loki.sent w) →
     Forall (λ s, carries_records s.2) (loki.sent w')).
Proof.
  destruct ev as [now|i|m now message order|i now after order]; cbn.
  - unfold loki.Start. destruct (now <? _); [done|].
    destruct (_ <=? 0); [done|]. intros [= <-]. cbn. by rewrite app_nil_r.
  - unfold loki.Stop. destruct (_ !! i); [|done]. intros [= <-]. cbn.
    by rewrite app_nil_r.
  - unfold loki.log. destruct (now <? _); [done|]. rewrite method_eq.
    destruct (loki.pushLogWithLevel _ now message _ order) as [[[c' reqs] err]| |] eqn:Hm;
      cbn; [|done..].
    intros [= <-]. cbn. apply pushLogWithLevel_delivers in Hm as [Hperm Hcar].
    rewrite records_sent_app. split.
    + rewrite <- app_assoc, Hperm.
      by destruct (method_level m <? loki.MinLevel (loki.config (loki.client w))).
    + intros Hs. apply Forall_app. split; [done|]. by apply Forall_fmap.
  - unfold loki.tick. destruct (_ !! i); [|done].
    destruct (_ || _); [done|]. destruct (_ >=? _).
    + destruct (loki.flush _ order) as [[c' reqs]| |] eqn:Hf; cbn; [|done..].
      intros [= <-]. cbn. apply flush_delivers in Hf as (Hperm & Hnil & _ & Hcar & _).
      rewrite records_sent_app. split.
      * by rewrite Hnil, Hperm, !app_nil_r.
      * intros Hs. apply Forall_app. split; [done|]. by apply Forall_fmap.
    + intros [= <-]. cbn. by rewrite app_nil_r.
Qed.

Lemma accepted_cons (minLevel : pkg.LogLevel) (ev : loki.Event) (evs : list loki.Event) :
  accepted minLevel (ev :: evs) = (accepted minLevel [ev] ++ accepted minLevel evs)%list.
Proof. unfold accepted. cbn. by destruct (match ev with loki.CallLog _ _ _ _ => _ | _ => _ end). Qed.

Lemma run_delivers (evs : list loki.Event) : ∀ w w' : loki.World,
  loki.run w evs = Ok w' →
  (records_sent (loki.sent w')
     ++ (loki.record <$> pkg.elems (pkg.entries (loki.buffer (loki.client w')))))%list
    ≡ₚ (records_sent (loki.sent w)
         ++ (loki.record <$> pkg.elems (pkg.entries (loki.buffer (loki.client w))))
         ++ (loki.record <$> accepted (loki.MinLevel (loki.config (loki.client w))) evs))%list
  ∧ (Forall (λ s, carries_records s.2) (loki.sent w) →
     Forall (λ s, carries_records s.2) (loki.sent w')).
Proof.
  induction evs as [|ev evs IH]; intros w w'; cbn [loki.run].
  - intros [= <-]. cbn. by rewrite app_nil_r.
  - destruct (loki.exec w ev) as [w1| |] eqn:He; [|done..].
    intros Hr. change (loki.run w1 evs = Ok w') in Hr.
    apply IH in Hr as [Hperm Hcar]. pose proof (exec_config _ _ _ He) as Hcfg.
    apply exec_delivers in He as [Hperm1 Hcar1]. split; [|auto].
    rewrite Hperm, Hcfg, (accepted_cons _ ev evs), fmap_app.
    rewrite !app_assoc. f_equiv. rewrite <- app_assoc. exact Hperm1.
Qed.


Lemma exec_counts (w w' : loki.World) (ev : loki.Event) :
  pkg.Buffer_ok (loki.buffer (loki.client w)) →
  Z.of_nat (length (pending w)) < pkg.size (loki.buffer (loki.client w)) →
  is_tick ev = false → loki.exec w ev = Ok w' →
  pkg.Buffer_ok (loki.buffer (loki.client w'))
  ∧ pkg.size (loki.buffer (loki.client w')) = pkg.size (loki.buffer (loki.client w))
  ∧ Z.of_nat (length (pending w')) < pkg.size (loki.buffer (loki.client w))
  ∧ (Z.of_nat (length (loki.sent w')) - Z.of_nat (length (loki.sent w)))
      * pkg.size (loki.buffer (loki.client w))
    + Z.of_nat (length (pending w'))
    = Z.of_nat (length (pending w))
      + Z.of_nat (length (accepted (loki.MinLevel (loki.config (loki.client w))) [ev])).
Proof.
  unfold pending, pkg.Buffer_ok. intros Hok Hp Htick.
  destruct ev as [now|i|m now message order|i now after order]; cbn; [| | |done].
  - unfold loki.Start. destruct (now <? _); [done|].
    destruct (_ <=? 0); [done|]. intros [= <-]. cbn. lia.
  - unfold loki.Stop. destruct (_ !! i); [|done]. intros [= <-]. cbn. lia.
  - unfold loki.log. destruct (now <? _); [done|]. rewrite method_eq.
    rewrite (pushLogWithLevel_eq _ now message _ order Hok). cbv zeta.
    destruct (Z.ltb_spec (method_level m) (loki.MinLevel (loki.config (loki.client w))))
      as [Hlt|Hge].
    + rewrite decide_True by done. cbn. intros [= <-]. cbn.
      rewrite length_app, length_nil. cbn. lia.
    + rewrite decide_False by lia. rewrite length_app. cbn [length].
      case_decide as Hsz.
      * case_decide; [|done]. cbn. intros [= <-]. cbn.
        rewrite !length_app. cbn. lia.
      * cbn. intros [= <-]. cbn. rewrite !length_app. cbn. lia.
Qed.

Lemma run_counts (evs : list loki.Event) : ∀ w w' : loki.World,
  pkg.Buffer_ok (loki.buffer (loki.client w)) →
  Z.of_nat (length (pending w)) < pkg.size (loki.buffer (loki.client w)) →
  forallb (λ ev, negb (is_tick ev)) evs = true → loki.run w evs = Ok w' →
  pkg.size (loki.buffer (loki.client w')) = pkg.size (loki.buffer (loki.client w))
  ∧ Z.of_nat (length (pending w')) < pkg.size (loki.buffer (loki.client w))
  ∧ (Z.of_nat (length (loki.sent w')) - Z.of_nat (length (loki.sent w)))
      * pkg.size (loki.buffer (loki.client w))
    + Z.of_nat (length (pending w'))
    = Z.of_nat (length (pending w))
      + Z.of_nat (length (accepted (loki.MinLevel (loki.config (loki.client w))) evs)).
Proof.
  induction evs as [|ev evs IH]; intros w w' Hok Hp; cbn [loki.run forallb].
  - intros _ [= <-]. change (accepted _ []) with (@nil pkg.LogEntry). cbn [length]. lia.
  - intros [Hev Hevs]%andb_prop. apply negb_true_iff in Hev.
    destruct (loki.exec w ev) as [w1| |] eqn:He; [|done..].
    intros Hr. change (loki.run w1 evs = Ok w') in Hr.
    pose proof (exec_config _ _ _ He) as Hcfg.
    destruct (exec_counts w w1 ev Hok Hp Hev He) as (Hok1 & Hn1 & Hp1 & Hs1).
    destruct (IH w1 w' Hok1) as (Hn & Hp' & Hs); [by rewrite Hn1|done|done|].
    rewrite Hn1, Hcfg in *.
    rewrite (accepted_cons _ ev evs), length_app, Nat2Z.inj_add.
    split; [done|]. split; [done|]. lia.
Qed.

(** One [flush]: the records of the requests it hands to [send] are the
    records of the entries that were pending, each once (in some order of
    the streams); it sends at most one request, none exactly when nothing
    was pending, and never a request with no stream or a stream with no
    record; afterwards the buffer is empty and its size unchanged. *)
Theorem flush_sends_each_pending_entry_once (c c' : loki.Client)
    (order : list pkg.LogLevel) (reqs : list loki.PushRequest) :
  loki.flush c order = Ok (c', reqs) →
  concat (request_records <$> reqs)
    ≡ₚ loki.record <$> pkg.elems (pkg.entries (loki.buffer c))
  ∧ pkg.elems (pkg.entries (loki.buffer c')) = []
  ∧ pkg.size (loki.buffer c') = pkg.size (loki.buffer c)
  ∧ Forall carries_records reqs
  ∧ (length reqs ≤ 1)%nat
  ∧ (reqs = [] ↔ pkg.elems (pkg.entries (loki.buffer c)) = []).
Proof. apply flush_delivers. Qed.

(** Along every run of a new client, the records sent so far together
    with the records of the entries still pending are the records of the
    entries submitted at or above [MinLevel], each once: no entry is sent
    twice, none is lost before it is sent, and none below [MinLevel] gets
    through. *)
Theorem run_sends_or_holds_each_accepted_entry (cfg : loki.ClientConfig) (now : Z)
    (evs : list loki.Event) (w : loki.World) :
  (w0 ← loki.NewWorld cfg now; loki.run w0 evs) = Ok w →
  (records_sent (loki.sent w) ++ (loki.record <$> pending w))%list
    ≡ₚ loki.record <$> accepted (loki.MinLevel (loki.config (loki.client w))) evs.
Proof.
  unfold loki.NewWorld. destruct (loki.NewClient cfg) as [c|] eqn:Hc; cbn; [|done].
  intros Hr. pose proof (run_config _ _ _ Hr) as Hcfg.
  apply run_delivers in Hr as [Hperm _]. cbn in Hperm, Hcfg.
  apply NewClient_inv in Hc as [_ ->]. cbn in Hperm, Hcfg. unfold pending.
  rewrite Hperm, Hcfg. done.
Qed.

(** No request a client ever hands to [send] is empty: along every run,
    each request sent has at least one stream, and each stream at least
    one record and a [detected_level] label. *)
Theorem no_empty_request_is_sent (cfg : loki.ClientConfig) (now : Z)
    (evs : list loki.Event) (w : loki.World) :
  (w0 ← loki.NewWorld cfg now; loki.run w0 evs) = Ok w →
  Forall (λ s, carries_records s.2) (loki.sent w).
Proof.
  unfold loki.NewWorld. destruct (loki.NewClient cfg) as [c|] eqn:Hc; cbn; [|done].
  intros Hr. apply run_delivers in Hr as [_ Hcar]. apply Hcar. cbn. apply Forall_nil.
  done.
Qed.

(** With no tick of a worker, only full batches leave: after a run of
    calls that do not overlap, in which [a] entries were submitted at or
    above [MinLevel], a new client with batch size [n] has sent [a / n]
    requests and holds the other [a mod n] entries, which stay in the
    buffer until a batch fills or a worker's tick comes due. *)
Theorem without_ticks_only_full_batches_are_sent (cfg : loki.ClientConfig) (now : Z)
    (evs : list loki.Event) (w : loki.World) :
  (w0 ← loki.NewWorld cfg now; loki.run w0 evs) = Ok w →
  forallb (λ ev, negb (is_tick ev)) evs = true →
  let n := loki.BatchSize (loki.config (loki.client w)) in
  let a := Z.of_nat (length (accepted (loki.MinLevel (loki.config (loki.client w))) evs)) in
  1 ≤ n
  ∧ Z.of_nat (length (loki.sent w)) = a `div` n
  ∧ Z.of_nat (length (pending w)) = a `mod` n.
Proof.
  unfold loki.NewWorld. destruct (loki.NewClient cfg) as [c|] eqn:Hc; cbn; [|done].
  intros Hr Hticks. pose proof (run_config _ _ _ Hr) as Hcfg. cbn in Hcfg.
  apply NewClient_inv in Hc as [HB ->]. cbn in Hcfg, HB.
  set (B := if decide (loki.BatchSize cfg = 0) then 100 else loki.BatchSize cfg) in *.
  assert (1 ≤ B) as HB1 by (subst B; case_decide; lia).
  apply run_counts in Hr as (_ & Hp & Hs); [|exact HB|cbn; lia|done].
  cbn in Hp, Hs. rewrite Hcfg. cbn. fold B.
  set (a := Z.of_nat (length (accepted _ evs))) in *.
  split; [done|]. split.
  - apply (Z.div_unique_pos a B _ (Z.of_nat (length (pending w)))); lia.
  - apply (Z.mod_unique_pos a B (Z.of_nat (length (loki.sent w)))); lia.
Qed.

End Delivery.

(** ** The client without levels *)
Section PlainClient.
Context `{!GoRuntime}.

(** The client without levels: [NewClient] replaces a zero [BatchSize],
    [MinWaitTime] and [MaxWaitTime] by 100, 1 and 10 and keeps every other
    value, and it panics exactly when the resulting batch size is one
    [make] refuses. *)
Theorem plain_NewClient_defaults_or_panics (cfg : loki_plain.ClientConfig) :
  let B := if decide (loki_plain.BatchSize cfg = 0) then 100
           else loki_plain.BatchSize cfg in
  (loki_plain.NewClient cfg = None ↔ B < 0 ∨ maxcap < B)
  ∧ ∀ c : loki_plain.Client, loki_plain.NewClient cfg = Some c →
      loki_plain.config c =
        {| loki_plain.URL := loki_plain.URL cfg;
           loki_plain.Labels := loki_plain.Labels cfg;
           loki_plain.BatchSize := B;
           loki_plain.MinWaitTime :=
             if decide (loki_plain.MinWaitTime cfg = 0) then 1
             else loki_plain.MinWaitTime cfg;
           loki_plain.MaxWaitTime :=
             if decide (loki_plain.MaxWaitTime cfg = 0) then 10
             else loki_plain.MaxWaitTime cfg |}
      ∧ loki_plain.buffer c =
          {| pkg.entries := {| pkg.elems := []; pkg.cap := B |}; pkg.size := B |}
      ∧ 1 ≤ B ≤ maxcap.
Proof.
  intros B. subst B. destruct cfg as [u l bs mn mx]. unfold loki_plain.NewClient. cbn.
  destruct (Z.eqb_spec bs 0); cbn; (destruct (Z.eqb_spec mn 0); cbn);
    (destruct (Z.eqb_spec mx 0); cbn); repeat case_decide; try lia;
    unfold pkg.NewBuffer;
    (destruct (pkg.make _) as [s|] eqn:Hm; cbn;
     [apply make_inv in Hm as [Hr ->]; split;
      [split; [done|lia]|intros c [= <-]; cbn; repeat split; (done || lia)]
     |split; [|done]; split; [intros _|done];
      match type of Hm with pkg.make ?n = None =>
        destruct (decide (0 ≤ n ≤ maxcap)) as [Hr|Hr];
          [by rewrite (make_Some _ Hr) in Hm|lia] end]).
Qed.

(** [PushLog] filters nothing and returns nil: the entry, with the zero
    level, goes after the pending ones, and either stays pending with them
    (below the batch size, nothing sent) or leaves with them, in order, in
    the one stream of one request labelled with the configured labels. *)
Theorem PushLog_keeps_every_entry (c : loki_plain.Client) (now : Z) (message : string) :
  let before := pkg.elems (pkg.entries (loki_plain.buffer c)) in
  pkg.Buffer_ok (loki_plain.buffer c) →
  ∃ c' reqs,
    loki_plain.PushLog c now message = Some (c', reqs, None)
    ∧ loki_plain.config c' = loki_plain.config c
    ∧ pkg.size (loki_plain.buffer c') = pkg.size (loki_plain.buffer c)
    ∧ (concat (request_records <$> reqs)
         ++ (loki.record <$> pkg.elems (pkg.entries (loki_plain.buffer c'))))%list
      = loki.record <$> (before ++ [entry now message 0])%list
    ∧ (reqs = [] ↔ Z.of_nat (length before) + 1 < pkg.size (loki_plain.buffer c))
    ∧ ∀ req, req ∈ reqs →
        loki.Streams req =
          [ {| loki.stream := loki_plain.Labels (loki_plain.config c);
               loki.values := loki.record <$> (before ++ [entry now message 0])%list |} ].
Proof.
  intros before Hok. unfold loki_plain.PushLog. rewrite Add_eq. fold before.
  case_bool_decide as Hsz.
  - rewrite plain_flush_eq by exact Hok. cbn. fold before.
    rewrite decide_False by (by destruct before).
    eexists _, _. split; [done|]. cbn. unfold request_records. cbn.
    rewrite !app_nil_r. split; [done|]. split; [done|]. split; [done|].
    split; [split; [done|lia]|]. by intros req ->%list_elem_of_singleton.
  - eexists _, _. split; [done|]. cbn. fold before.
    split; [done|]. split; [done|]. split; [done|].
    split; [split; [lia|done]|]. by intros req ?%elem_of_nil.
Qed.

End PlainClient.

(** ** Instances on a 64-bit runtime *)

#[local] Existing Instance amd64.

(** C1, on the code. Two entries are submitted to a client with batch
    size 100 and [Stop] is called before any tick: the worker exits, [send]
    has not been called, and the two entries are still in the buffer. The
    comment on [Stop] promises that all logs are sent. *)
Theorem Stop_leaves_pending_entries_unsent :
  ∃ w : loki.World,
    (w0 ← loki.NewWorld (test_config 100 pkg.LevelInfo) 0;
     loki.run w0 [loki.CallStart 0;
                  loki.CallLog loki.MInfo 1000 "a" [];
                  loki.CallLog loki.MWarn 2000 "b" [];
                  loki.CallStop 0]) = Ok w
    ∧ loki.workers w = []
    ∧ loki.sent w = []
    ∧ pkg.elems (pkg.entries (loki.buffer (loki.client w)))
      = [entry 1000 "a" pkg.LevelInfo; entry 2000 "b" pkg.LevelWarn].
Proof. eexists. split; [vm_compute; reflexivity|]. repeat split. Qed.

(** C2, on the code. With batch size 1 and [MinWaitTime] at its default
    of one second, two entries submitted a microsecond apart are sent by two
    flushes, a microsecond apart: [MinWaitTime] is read nowhere, though
    types.go documents it as the least time between two sends. *)
Theorem size_flushes_ignore_MinWaitTime :
  ∃ (w : loki.World) (r1 r2 : loki.PushRequest),
    (w0 ← loki.NewWorld (test_config 1 pkg.LevelInfo) 0;
     loki.run w0 [loki.CallStart 0;
                  loki.CallLog loki.MInfo 1000 "a" [pkg.LevelInfo];
                  loki.CallLog loki.MInfo 2000 "b" [pkg.LevelInfo]]) = Ok w
    ∧ loki.MinWaitTime (loki.config (loki.client w)) = 1
    ∧ loki.sent w = [(1000, r1); (2000, r2)]
    ∧ loki.values <$> loki.Streams r1 = [[("1000", "a")]]
    ∧ loki.values <$> loki.Streams r2 = [[("2000", "b")]]
    ∧ 2000 - 1000 < seconds (loki.MinWaitTime (loki.config (loki.client w))).
Proof.
  eexists _, _, _. split; [vm_compute; reflexivity|]. cbn.
  repeat split; vm_compute; reflexivity.
Qed.

(** C3, on the code. With batch size 2 and [MaxWaitTime] 10, a flush
    triggered by the second entry at 5 s leaves the worker's [lastFlush] at
    0, the instant the worker started; at the tick of 10 s the worker
    flushes again, 5 s after that flush, and only then is [lastFlush]
    assigned: of the two paths to [flush], one records the instant. *)
Theorem size_flush_keeps_lastFlush :
  ∃ (w1 w2 : loki.World) (r1 r2 : loki.PushRequest),
    (w0 ← loki.NewWorld (test_config 2 pkg.LevelInfo) 0;
     loki.run w0 [loki.CallStart 0;
                  loki.CallLog loki.MInfo 5000000000 "a" [];
                  loki.CallLog loki.MInfo 5000000001 "b" [pkg.LevelInfo]]) = Ok w1
    ∧ loki.sent w1 = [(5000000001, r1)]
    ∧ loki.lastFlush <$> loki.workers w1 = [0]
    ∧ loki.run w1 [loki.CallLog loki.MInfo 6000000000 "c" [];
                   loki.Tick 0 10000000000 10000000002 [pkg.LevelInfo]] = Ok w2
    ∧ loki.sent w2 = [(5000000001, r1); (10000000000, r2)]
    ∧ loki.values <$> loki.Streams r2 = [[("6000000000", "c")]]
    ∧ loki.lastFlush <$> loki.workers w2 = [10000000002]
    ∧ 10000000000 - 5000000001 < seconds (loki.MaxWaitTime (loki.config (loki.client w2))).
Proof.
  eexists _, _, _, _. split; [vm_compute; reflexivity|]. cbn.
  split; [reflexivity|]. split; [reflexivity|].
  split; [vm_compute; reflexivity|]. cbn.
  repeat split; vm_compute; reflexivity.
Qed.

(** Against C4 as stated: after [Start] and one [Stop], no second [Stop]
    returns. *)
Lemma second_Stop_never_returns :
  ∃ w : loki.World,
    (w0 ← loki.NewWorld (test_config 100 pkg.LevelInfo) 0;
     loki.run w0 [loki.CallStart 0; loki.CallStop 0]) = Ok w
    ∧ ¬ ∃ i w', loki.exec w (loki.CallStop i) = Ok w'.
Proof.
  eexists. split; [vm_compute; reflexivity|].
  intros (i & w' & Hs). cbn in Hs. unfold loki.Stop in Hs. cbn in Hs.
  by rewrite lookup_nil in Hs.
Qed.

(** Against C10 as stated: a [MinLevel] of -1 is kept, it is below
    [LevelInfo], and a [Debug] entry is buffered. *)
Lemma negative_MinLevel_buffers_Debug :
  ∃ c c' : loki.Client,
    loki.NewClient (test_config 100 (-1)) = Some c
    ∧ ¬ pkg.LevelInfo ≤ loki.MinLevel (loki.config c)
    ∧ loki.Debug c 1000 "d" [] = Ok (c', [], None)
    ∧ pkg.elems (pkg.entries (loki.buffer c')) = [entry 1000 "d" pkg.LevelDebug].
Proof.
  eexists _, _. split; [vm_compute; reflexivity|].
  split; [vm_compute; by intros H|]. split; vm_compute; reflexivity.
Qed.

Lemma Add_reports_threshold_witness :
  (2 < length abc)%nat
  ∧ pkg.len (pkg.entries (buffer_with 3 [])) + Z.of_nat 2 + 1 = pkg.size (buffer_with 3 [])
  ∧ ∃ b rs,
      pkg.calls (buffer_with 3 [])
        (pkg.CallAdd <$> abc) = Some (b, rs)
      ∧ rs !! 2%nat = Some (pkg.Added true)
      ∧ ∀ i : nat, (i < 2)%nat → rs !! i = Some (pkg.Added false).
Proof.
  assert (2 < length abc)%nat as Hj by (simpl; lia).
  destruct (proj2 (Add_reports_threshold (buffer_with 3 []) (entry 1 "a" pkg.LevelInfo))
              abc 2%nat Hj eq_refl)
    as (b & rs & Hc & Htrue & _ & Hfalse).
  split; [exact Hj|]. split; [reflexivity|].
  exists b, rs. split; [exact Hc|]. split; [exact Htrue|exact Hfalse].
Defined.

Lemma Flush_hands_out_pending_witness :
  pkg.NewBuffer 2 = Some (buffer_with 2 [])
  ∧ ∃ b rs,
      pkg.calls (buffer_with 2 [])
        [pkg.CallAdd (entry 1 "a" pkg.LevelInfo); pkg.CallAdd (entry 2 "b" 2); pkg.CallFlush;
         pkg.CallFlush; pkg.CallAdd (entry 3 "c" 1)] = Some (b, rs)
      ∧ pkg.elems (pkg.entries b) = [entry 3 "c" 1]
      ∧ (pkg.drained_by rs ++ pkg.elems (pkg.entries b))%list
        = [entry 1 "a" 1; entry 2 "b" 2; entry 3 "c" 1].
Proof.
  assert (pkg.NewBuffer 2 = Some (buffer_with 2 [])) as Hnew by reflexivity.
  destruct (Flush_hands_out_pending 2 (buffer_with 2 [])
              [pkg.CallAdd (entry 1 "a" pkg.LevelInfo); pkg.CallAdd (entry 2 "b" 2); pkg.CallFlush;
               pkg.CallFlush; pkg.CallAdd (entry 3 "c" 1)] Hnew)
    as (b & rs & Hc & _ & Hpending & Honce).
  split; [exact Hnew|]. exists b, rs. split; [exact Hc|]. split.
  - apply (Hpending [pkg.CallAdd (entry 1 "a" pkg.LevelInfo); pkg.CallAdd (entry 2 "b" 2);
                     pkg.CallFlush; pkg.CallFlush] [entry 3 "c" 1]); [reflexivity|].
    right. reflexivity.
  - exact Honce.
Defined.

Lemma pushLogWithLevel_filters_by_level_witness :
  (pkg.LevelInfo < loki.MinLevel (loki.config (client_with 3 pkg.LevelWarn []))
   ∧ loki.pushLogWithLevel (client_with 3 pkg.LevelWarn []) 1000 "i" pkg.LevelInfo []
     = Ok (client_with 3 pkg.LevelWarn [], [], None))
  ∧ (loki.MinLevel (loki.config (client_with 3 pkg.LevelWarn [])) = pkg.LevelWarn
     ∧ pkg.Buffer_ok (loki.buffer (client_with 3 pkg.LevelWarn []))
     ∧ pkg.elems (pkg.entries (loki.buffer (client_with 3 pkg.LevelWarn []))) = []
     ∧ 1 < pkg.size (loki.buffer (client_with 3 pkg.LevelWarn []))
     ∧ loki.Debug (client_with 3 pkg.LevelWarn []) 2000 "w" []
       = Ok (client_with 3 pkg.LevelWarn [], [], None)
     ∧ loki.Info (client_with 3 pkg.LevelWarn []) 2000 "w" []
       = Ok (client_with 3 pkg.LevelWarn [], [], None)
     ∧ ∃ c', loki.Warn (client_with 3 pkg.LevelWarn []) 2000 "w" [] = Ok (c', [], None)
             ∧ pkg.elems (pkg.entries (loki.buffer c')) = [entry 2000 "w" pkg.LevelWarn]).
Proof.
  assert (pkg.Buffer_ok (loki.buffer (client_with 3 pkg.LevelWarn []))) as Hok
    by (vm_compute; split; discriminate).
  assert (1 < pkg.size (loki.buffer (client_with 3 pkg.LevelWarn []))) as Hsz
    by reflexivity.
  split.
  - split; [reflexivity|].
    exact (proj1 (pushLogWithLevel_filters_by_level
                    (client_with 3 pkg.LevelWarn []) 1000 "i" pkg.LevelInfo [])
                 eq_refl).
  - split; [reflexivity|]. split; [exact Hok|]. split; [reflexivity|].
    split; [exact Hsz|].
    exact (proj2 (proj2 (pushLogWithLevel_filters_by_level
                           (client_with 3 pkg.LevelWarn []) 2000 "w" pkg.LevelWarn []))
                 eq_refl Hok eq_refl Hsz).
Defined.

Lemma NewClient_applies_defaults_witness :
  0 ≤ loki.BatchSize (test_config 0 0) ≤ maxcap ∧ 100 ≤ maxcap
  ∧ is_Some (loki.NewClient (test_config 0 0))
  ∧ loki.NewClient (test_config 0 0) = Some (client_with 100 pkg.LevelInfo [])
  ∧ loki.BatchSize (loki.config (client_with 100 pkg.LevelInfo [])) = 100
  ∧ loki.MinWaitTime (loki.config (client_with 100 pkg.LevelInfo [])) = 1
  ∧ loki.MaxWaitTime (loki.config (client_with 100 pkg.LevelInfo [])) = 10
  ∧ loki.MinLevel (loki.config (client_with 100 pkg.LevelInfo [])) = pkg.LevelInfo.
Proof.
  assert (0 ≤ loki.BatchSize (test_config 0 0) ≤ maxcap) as Hb
    by (vm_compute; split; discriminate).
  assert (100 ≤ maxcap) as Hmax by (vm_compute; discriminate).
  assert (loki.NewClient (test_config 0 0) = Some (client_with 100 pkg.LevelInfo []))
    as Hc by reflexivity.
  destruct (NewClient_applies_defaults (test_config 0 0)) as [Hsome Hfields].
  destruct (Hfields _ Hc) as (_ & _ & Hbs & _ & Hmn & _ & Hmx & _ & Hml & _).
  split; [exact Hb|]. split; [exact Hmax|]. split; [exact (Hsome Hb Hmax)|].
  split; [exact Hc|]. split; [exact (Hbs eq_refl)|]. split; [exact (Hmn eq_refl)|].
  split; [exact (Hmx eq_refl)|exact (Hml eq_refl)].
Defined.

Lemma NewClient_keeps_MinLevel_above_Debug_witness :
  0 ≤ loki.MinLevel (test_config 100 pkg.LevelDebug)
  ∧ loki.NewClient (test_config 100 pkg.LevelDebug) = Some (client_with 100 pkg.LevelInfo [])
  ∧ pkg.LevelInfo ≤ loki.MinLevel (loki.config (client_with 100 pkg.LevelInfo []))
  ∧ loki.MinLevel (loki.config (client_with 100 pkg.LevelInfo [])) = pkg.LevelInfo.
Proof.
  assert (0 ≤ loki.MinLevel (test_config 100 pkg.LevelDebug)) as Hml
    by (vm_compute; discriminate).
  assert (loki.NewClient (test_config 100 pkg.LevelDebug)
          = Some (client_with 100 pkg.LevelInfo [])) as Hc by reflexivity.
  destruct (NewClient_keeps_MinLevel_above_Debug _ _ Hml Hc) as (Hge & Heq & _).
  split; [exact Hml|]. split; [exact Hc|]. split; [exact Hge|exact (Heq eq_refl)].
Defined.

Lemma Stop_returns_only_to_a_running_worker_witness :
  loki.workers (started (client_with 100 pkg.LevelInfo [])) ≠ []
  ∧ length (loki.workers (started (client_with 100 pkg.LevelInfo []))) = 1%nat
  ∧ (∃ w',
       loki.Stop (started (client_with 100 pkg.LevelInfo [])) 0 = Ok w'
       ∧ S (length (loki.workers w'))
         = length (loki.workers (started (client_with 100 pkg.LevelInfo [])))
       ∧ ∃ w'',
           loki.run w' [loki.CallLog loki.MInfo 1000 "a" []] = Ok w''
           ∧ ∀ j, loki.Stop w'' j = Disabled).
Proof.
  destruct (Stop_returns_only_to_a_running_worker
              (started (client_with 100 pkg.LevelInfo [])))
    as (_ & Hiff & Hkeep & Hblock).
  assert (loki.workers (started (client_with 100 pkg.LevelInfo [])) ≠ []) as Hne
    by discriminate.
  split; [exact Hne|]. split; [reflexivity|].
  eexists. split; [reflexivity|]. split; [exact (Hkeep 0%nat _ eq_refl)|].
  eexists. split; [vm_compute; reflexivity|].
  eapply (Hblock 0%nat _ [loki.CallLog loki.MInfo 1000 "a" []]);
    [reflexivity|reflexivity|reflexivity|vm_compute; reflexivity].
Defined.

Lemma flush_builds_one_stream_per_label_set_witness :
  (pkg.Buffer_ok (loki.buffer (client_with 100 pkg.LevelInfo
                     abc))
   ∧ ∃ c',
       loki.flush (client_with 100 pkg.LevelInfo
                     abc) [2; 1]
       = Ok (c', [ {| loki.Streams :=
                        [ {| loki.stream := {[ "job" := "test"; "detected_level" := "warn" ]};
                             loki.values := [("2000", "b")] |};
                          {| loki.stream := {[ "job" := "test"; "detected_level" := "info" ]};
                             loki.values := [("1000", "a"); ("3000", "c")] |} ] |} ])
       ∧ NoDup [2; 1])
  ∧ (pkg.Buffer_ok (loki_plain.buffer (plain_client_with 100
                      [entry 1000 "a" 0; entry 2000 "b" 0]))
     ∧ ∃ c',
         loki_plain.flush (plain_client_with 100 [entry 1000 "a" 0; entry 2000 "b" 0])
         = Some (c', [ {| loki.Streams :=
                            [ {| loki.stream := {[ "job" := "test" ]};
                                 loki.values := [("1000", "a"); ("2000", "b")] |} ] |} ])).
Proof.
  destruct flush_builds_one_stream_per_label_set as (Hlevels & _ & Hplain).
  assert (pkg.Buffer_ok (buffer_with 100 abc))
    as Hok by (vm_compute; split; discriminate).
  assert (pkg.Buffer_ok (buffer_with 100 [entry 1000 "a" 0; entry 2000 "b" 0]))
    as Hok' by (vm_compute; split; discriminate).
  split.
  - split; [exact Hok|]. eexists. split; [vm_compute; reflexivity|].
    destruct (Hlevels (client_with 100 pkg.LevelInfo
                         abc) [2; 1]
                      Hok ltac:(discriminate)) as [_ Hreq].
    eapply Hreq. vm_compute. reflexivity.
  - split; [exact Hok'|].
    destruct (Hplain (plain_client_with 100 [entry 1000 "a" 0; entry 2000 "b" 0])
                     Hok' ltac:(discriminate)) as (c' & _ & _ & Hex).
    exists c'. apply Hex; reflexivity.
Defined.

(** *** Instances of the further properties *)

Lemma LevelToString_names_declared_levels_witness :
  ¬ pkg.declared 7 ∧ pkg.LevelToString 7 = "unknown"
  ∧ pkg.declared pkg.LevelWarn
  ∧ pkg.LevelToString pkg.LevelWarn = "warn".
Proof.
  destruct (LevelToString_names_declared_levels 7 pkg.LevelWarn)
    as (Hunknown & _ & _ & _ & Hwarn & _).
  assert (¬ pkg.declared 7) as Hnot by (unfold pkg.declared; lia).
  split; [exact Hnot|]. split; [exact (proj2 Hunknown Hnot)|].
  split; [unfold pkg.declared, pkg.LevelWarn; lia|exact Hwarn].
Defined.

Lemma Add_keeps_capacity_while_it_fits_witness :
  pkg.len (pkg.entries (buffer_with 3 [])) + Z.of_nat (length abc)
    ≤ pkg.cap (pkg.entries (buffer_with 3 []))
  ∧ ∃ b' rs,
      pkg.calls (buffer_with 3 []) (pkg.CallAdd <$> abc) = Some (b', rs)
      ∧ pkg.cap (pkg.entries b') = pkg.cap (pkg.entries (buffer_with 3 [])).
Proof.
  assert (pkg.len (pkg.entries (buffer_with 3 [])) + Z.of_nat (length abc)
          ≤ pkg.cap (pkg.entries (buffer_with 3 []))) as Hfit
    by (vm_compute; discriminate).
  split; [exact Hfit|].
  exact (proj1 (Add_keeps_capacity_while_it_fits (buffer_with 3 []) abc) Hfit).
Defined.

Lemma NewClient_panics_on_bad_batch_size_witness :
  loki.BatchSize (test_config (-5) pkg.LevelInfo) < 0
  ∧ loki.NewClient (test_config (-5) pkg.LevelInfo) = None.
Proof.
  assert (loki.BatchSize (test_config (-5) pkg.LevelInfo) < 0) as Hneg by reflexivity.
  split; [exact Hneg|].
  exact (proj1 (proj2 (NewClient_panics_on_bad_batch_size
                         (test_config (-5) pkg.LevelInfo))) Hneg).
Defined.

Lemma Start_panics_on_bad_MaxWaitTime_witness :
  loki.clock (started (client_with 100 pkg.LevelInfo [])) ≤ 5
  ∧ 1 ≤ loki.MaxWaitTime (loki.config (loki.client (started (client_with 100 pkg.LevelInfo []))))
      ≤ 9223372036
  ∧ loki.Start (started (client_with 100 pkg.LevelInfo [])) 5 =
      Ok {| loki.client := client_with 100 pkg.LevelInfo [];
            loki.workers := [ {| loki.ticker := 10000000000; loki.lastFlush := 0 |};
                              {| loki.ticker := 10000000000; loki.lastFlush := 5 |} ];
            loki.sent := [];
            loki.clock := 5 |}.
Proof.
  assert (loki.clock (started (client_with 100 pkg.LevelInfo [])) ≤ 5) as Hclock
    by (vm_compute; discriminate).
  assert (1 ≤ loki.MaxWaitTime
                (loki.config (loki.client (started (client_with 100 pkg.LevelInfo []))))
            ≤ 9223372036) as Hm by (vm_compute; split; discriminate).
  split; [exact Hclock|]. split; [exact Hm|].
  exact (proj1 (Start_panics_on_bad_MaxWaitTime
                  (started (client_with 100 pkg.LevelInfo [])) 5 Hclock) Hm).
Defined.

Lemma tick_flushes_when_due_witness :
  loki.workers (started (client_with 100 pkg.LevelInfo abc)) !! 0%nat
    = Some {| loki.ticker := 10000000000; loki.lastFlush := 0 |}
  ∧ loki.clock (started (client_with 100 pkg.LevelInfo abc)) ≤ 10000000000 ≤ 10000000007
  ∧ pkg.Buffer_ok (loki.buffer (client_with 100 pkg.LevelInfo abc))
  ∧ loki.enumerates [pkg.LevelWarn; pkg.LevelInfo] (loki.levelGroups abc)
  ∧ ∃ w',
      loki.tick (started (client_with 100 pkg.LevelInfo abc)) 0 10000000000 10000000007
        [pkg.LevelWarn; pkg.LevelInfo] = Ok w'
      ∧ pending w' = []
      ∧ loki.lastFlush <$> loki.workers w' = [10000000007]
      ∧ fst <$> loki.sent w' = [10000000000].
Proof.
  assert (loki.clock (started (client_with 100 pkg.LevelInfo abc))
          ≤ 10000000000 ≤ 10000000007) as Hclock by (vm_compute; split; discriminate).
  assert (pkg.Buffer_ok (loki.buffer (client_with 100 pkg.LevelInfo abc))) as Hok
    by (vm_compute; split; discriminate).
  assert (loki.enumerates [pkg.LevelWarn; pkg.LevelInfo] (loki.levelGroups abc)) as Hen
    by (refine (bool_decide_unpack _ _); vm_compute; exact I).
  split; [reflexivity|]. split; [exact Hclock|]. split; [exact Hok|]. split; [exact Hen|].
  destruct (proj2 (tick_flushes_when_due (started (client_with 100 pkg.LevelInfo abc))
                     0 {| loki.ticker := 10000000000; loki.lastFlush := 0 |}
                     10000000000 10000000007 [pkg.LevelWarn; pkg.LevelInfo]
                     eq_refl Hclock Hok))
    as (w' & Ht & Hp & _ & Hw & _ & Hs).
  - vm_compute. discriminate.
  - right. exact Hen.
  - exists w'. split; [exact Ht|]. split; [exact Hp|]. split.
    + rewrite Hw. reflexivity.
    + rewrite Hs. reflexivity.
Defined.

Lemma workers_are_starts_minus_stops_witness :
  ∃ w',
    loki.run (started (client_with 100 pkg.LevelInfo []))
      [loki.CallStart 5; loki.CallStart 6; loki.CallStop 0] = Ok w'
    ∧ length (loki.workers w') = 2%nat.
Proof.
  destruct (loki.run (started (client_with 100 pkg.LevelInfo []))
              [loki.CallStart 5; loki.CallStart 6; loki.CallStop 0])
    as [w'| |] eqn:Hr; [|vm_compute in Hr; discriminate..].
  exists w'. split; [reflexivity|].
  pose proof (workers_are_starts_minus_stops _ _ _ Hr) as Hn. cbn in Hn. lia.
Defined.

Lemma record_determines_entry_witness :
  loki.record (entry 1000 "a" pkg.LevelInfo) = loki.record (entry 1000 "a" pkg.LevelWarn).
Proof.
  exact (proj2 (record_determines_entry (entry 1000 "a" pkg.LevelInfo)
                  (entry 1000 "a" pkg.LevelWarn)) (conj eq_refl eq_refl)).
Defined.

Lemma flush_sends_each_pending_entry_once_witness :
  ∃ c' reqs,
    loki.flush (client_with 100 pkg.LevelInfo abc) [pkg.LevelWarn; pkg.LevelInfo]
      = Ok (c', reqs)
    ∧ concat (request_records <$> reqs) ≡ₚ loki.record <$> abc
    ∧ length reqs = 1%nat.
Proof.
  destruct (loki.flush (client_with 100 pkg.LevelInfo abc) [pkg.LevelWarn; pkg.LevelInfo])
    as [[c' reqs]| |] eqn:Hf; [|vm_compute in Hf; discriminate..].
  exists c', reqs. split; [reflexivity|].
  destruct (flush_sends_each_pending_entry_once _ _ _ _ Hf)
    as (Hperm & _ & _ & _ & Hle & Hnil).
  split; [exact Hperm|].
  destruct reqs as [|r [|r' reqs]]; [|reflexivity|cbn in Hle; lia].
  discriminate (proj1 Hnil eq_refl).
Defined.

Lemma run_sends_or_holds_each_accepted_entry_witness :
  ∃ w,
    (w0 ← loki.NewWorld (test_config 2 pkg.LevelInfo) 0;
     loki.run w0 [loki.CallStart 0;
                  loki.CallLog loki.MInfo 1000 "a" [];
                  loki.CallLog loki.MDebug 1500 "d" [];
                  loki.CallLog loki.MWarn 2000 "b" [pkg.LevelWarn; pkg.LevelInfo];
                  loki.CallLog loki.MError 3000 "c" []]) = Ok w
    ∧ (records_sent (loki.sent w) ++ (loki.record <$> pending w))%list
      ≡ₚ [("1000", "a"); ("2000", "b"); ("3000", "c")].
Proof.
  eexists. split; [vm_compute; reflexivity|].
  etrans; [apply (run_sends_or_holds_each_accepted_entry (test_config 2 pkg.LevelInfo) 0
                    [loki.CallStart 0;
                     loki.CallLog loki.MInfo 1000 "a" [];
                     loki.CallLog loki.MDebug 1500 "d" [];
                     loki.CallLog loki.MWarn 2000 "b" [pkg.LevelWarn; pkg.LevelInfo];
                     loki.CallLog loki.MError 3000 "c" []]);
           vm_compute; reflexivity|].
  vm_compute. reflexivity.
Defined.

Lemma no_empty_request_is_sent_witness :
  ∃ w,
    (w0 ← loki.NewWorld (test_config 2 pkg.LevelInfo) 0;
     loki.run w0 [loki.CallStart 0;
                  loki.CallLog loki.MInfo 1000 "a" [];
                  loki.Tick 0 10000000000 10000000001 [pkg.LevelInfo];
                  loki.Tick 0 20000000000 20000000001 []]) = Ok w
    ∧ length (loki.sent w) = 1%nat
    ∧ Forall (λ s, carries_records s.2) (loki.sent w).
Proof.
  eexists. split; [vm_compute; reflexivity|]. split; [reflexivity|].
  apply (no_empty_request_is_sent (test_config 2 pkg.LevelInfo) 0
           [loki.CallStart 0;
            loki.CallLog loki.MInfo 1000 "a" [];
            loki.Tick 0 10000000000 10000000001 [pkg.LevelInfo];
            loki.Tick 0 20000000000 20000000001 []]).
  vm_compute. reflexivity.
Defined.

Lemma without_ticks_only_full_batches_are_sent_witness :
  ∃ w,
    (w0 ← loki.NewWorld (test_config 2 pkg.LevelInfo) 0;
     loki.run w0 [loki.CallStart 0;
                  loki.CallLog loki.MInfo 1000 "a" [];
                  loki.CallLog loki.MDebug 1500 "d" [];
                  loki.CallLog loki.MWarn 2000 "b" [pkg.LevelWarn; pkg.LevelInfo];
                  loki.CallLog loki.MError 3000 "c" []]) = Ok w
    ∧ Z.of_nat (length (loki.sent w)) = 1
    ∧ Z.of_nat (length (pending w)) = 1.
Proof.
  eexists. split; [vm_compute; reflexivity|].
  edestruct (without_ticks_only_full_batches_are_sent (test_config 2 pkg.LevelInfo) 0
               [loki.CallStart 0;
                loki.CallLog loki.MInfo 1000 "a" [];
                loki.CallLog loki.MDebug 1500 "d" [];
                loki.CallLog loki.MWarn 2000 "b" [pkg.LevelWarn; pkg.LevelInfo];
                loki.CallLog loki.MError 3000 "c" []]) as (_ & Hs & Hp);
    [vm_compute; reflexivity|vm_compute; reflexivity|].
  split; (etrans; [eassumption|vm_compute; reflexivity]).
Defined.

Lemma plain_NewClient_defaults_or_panics_witness :
  loki_plain.NewClient
    {| loki_plain.URL := "http://localhost:3100";
       loki_plain.Labels := {[ "job" := "test" ]};
       loki_plain.BatchSize := 0; loki_plain.MinWaitTime := 0;
       loki_plain.MaxWaitTime := 0 |} = Some (plain_client_with 100 [])
  ∧ loki_plain.buffer (plain_client_with 100 []) = buffer_with 100 []
  ∧ 1 ≤ 100 ≤ maxcap.
Proof.
  assert (loki_plain.NewClient
            {| loki_plain.URL := "http://localhost:3100";
               loki_plain.Labels := {[ "job" := "test" ]};
               loki_plain.BatchSize := 0; loki_plain.MinWaitTime := 0;
               loki_plain.MaxWaitTime := 0 |} = Some (plain_client_with 100 []))
    as Hc by reflexivity.
  destruct (proj2 (plain_NewClient_defaults_or_panics
                     {| loki_plain.URL := "http://localhost:3100";
                        loki_plain.Labels := {[ "job" := "test" ]};
                        loki_plain.BatchSize := 0; loki_plain.MinWaitTime := 0;
                        loki_plain.MaxWaitTime := 0 |}) _ Hc) as (_ & Hbuf & Hr).
  split; [exact Hc|]. split; [exact Hbuf|exact Hr].
Defined.

Lemma PushLog_keeps_every_entry_witness :
  pkg.Buffer_ok (loki_plain.buffer (plain_client_with 2 [entry 1000 "a" 0]))
  ∧ ∃ c' reqs,
      loki_plain.PushLog (plain_client_with 2 [entry 1000 "a" 0]) 2000 "b"
        = Some (c', reqs, None)
      ∧ (concat (request_records <$> reqs)
           ++ (loki.record <$> pkg.elems (pkg.entries (loki_plain.buffer c'))))%list
        = [("1000", "a"); ("2000", "b")].
Proof.
  assert (pkg.Buffer_ok (loki_plain.buffer (plain_client_with 2 [entry 1000 "a" 0])))
    as Hok by (vm_compute; split; discriminate).
  split; [exact Hok|].
  destruct (PushLog_keeps_every_entry (plain_client_with 2 [entry 1000 "a" 0]) 2000 "b" Hok)
    as (c' & reqs & Hp & _ & _ & Hrec & _).
  exists c', reqs. split; [exact Hp|]. rewrite Hrec. reflexivity.
Defined.
